(** * The dlt bridge of dagster-open-platform

    A shallow embedding of
    [dagster_open_platform/resources/dlt_resource.py]: the key translator
    [DltDagsterTranslator], the metadata normaliser
    [_cast_load_info_metadata], the per-resource slice
    [extract_resource_metadata], the generator [DltDagsterResource.run] and
    the build-time decorator [dlt_assets]. *)

From Stdlib Require Import List String Ascii Bool Arith ZArith Lia Permutation.
Import ListNotations.
Local Open Scope string_scope.
Local Open Scope list_scope.

(** ** Python values *)

Module Py.

(** pendulum is an external library.  The code makes two observations of
    a pendulum object: [isinstance] and [str].  An object is therefore
    carried with its rendering. *)
Record DateTime := mkDateTime { DateTime_str : string }.
Record Timezone := mkTimezone { Timezone_str : string }.

(** The values that travel through a load-info dictionary.  A [dict] is
    kept as its item list in insertion order (keys pairwise unequal in a
    dictionary Python built).  [VIterable] is an iterable of another class
    (a set, a frozenset), kept as the sequence iterating it produces;
    [VMapping] is a mapping that is not a [dict] (a mappingproxy, a
    UserDict): it has a [get] method and iterating it produces its keys.
    [VObject] is an object of any remaining class: it cannot be iterated
    and has no [get] method. *)
#[warnings="-register-all"]
Inductive value : Type :=
| VNone
| VBool (b : bool)
| VInt (z : Z)
| VStr (s : string)
| VDateTime (d : DateTime)
| VTimezone (t : Timezone)
| VObject (class_name : string) (ident : nat)
| VTuple (items : list value)
| VList (items : list value)
| VDict (items : list (value * value))
| VIterable (class_name : string) (items : list value)
| VMapping (class_name : string) (items : list (value * value)).

Definition dict := list (value * value).

(** Induction that reaches below lists, tuples and dictionaries. *)
Section value_induction.
Variable P : value -> Prop.
Hypothesis HNone : P VNone.
Hypothesis HBool : forall b, P (VBool b).
Hypothesis HInt : forall z, P (VInt z).
Hypothesis HStr : forall s, P (VStr s).
Hypothesis HDateTime : forall d, P (VDateTime d).
Hypothesis HTimezone : forall t, P (VTimezone t).
Hypothesis HObject : forall c i, P (VObject c i).
Hypothesis HTuple : forall l, Forall P l -> P (VTuple l).
Hypothesis HList : forall l, Forall P l -> P (VList l).
Hypothesis HDict :
  forall d, Forall (fun kv => P (fst kv) /\ P (snd kv)) d -> P (VDict d).
Hypothesis HIterable : forall c l, Forall P l -> P (VIterable c l).
Hypothesis HMapping :
  forall c d,
    Forall (fun kv => P (fst kv) /\ P (snd kv)) d -> P (VMapping c d).

Fixpoint value_deep_ind (v : value) : P v :=
  match v with
  | VNone => HNone
  | VBool b => HBool b
  | VInt z => HInt z
  | VStr s => HStr s
  | VDateTime d => HDateTime d
  | VTimezone t => HTimezone t
  | VObject c i => HObject c i
  | VTuple l =>
      HTuple l ((fix go (l : list value) : Forall P l :=
                 match l with
                 | [] => Forall_nil _
                 | x :: r => Forall_cons x (value_deep_ind x) (go r)
                 end) l)
  | VList l =>
      HList l ((fix go (l : list value) : Forall P l :=
                match l with
                | [] => Forall_nil _
                | x :: r => Forall_cons x (value_deep_ind x) (go r)
                end) l)
  | VDict d =>
      HDict d ((fix go (d : list (value * value))
                : Forall (fun kv => P (fst kv) /\ P (snd kv)) d :=
                match d with
                | [] => Forall_nil _
                | (k, x) :: r =>
                    Forall_cons (k, x)
                      (conj (value_deep_ind k) (value_deep_ind x)) (go r)
                end) d)
  | VIterable c l =>
      HIterable c l ((fix go (l : list value) : Forall P l :=
                        match l with
                        | [] => Forall_nil _
                        | x :: r => Forall_cons x (value_deep_ind x) (go r)
                        end) l)
  | VMapping c d =>
      HMapping c d ((fix go (d : list (value * value))
                       : Forall (fun kv => P (fst kv) /\ P (snd kv)) d :=
                       match d with
                       | [] => Forall_nil _
                       | (k, x) :: r =>
                           Forall_cons (k, x)
                             (conj (value_deep_ind k) (value_deep_ind x))
                             (go r)
                       end) d)
  end.
End value_induction.

(** [x == s] where [s] is a [str]: only a [str] compares equal to one. *)
Definition eq_str (x : value) (s : string) : bool :=
  match x with
  | VStr t => String.eqb t s
  | _ => false
  end.

(** [d.get(key)] for a [str] key: the item whose key equals it. *)
Fixpoint dict_get (d : dict) (key : string) : option value :=
  match d with
  | [] => None
  | (k, v) :: r => if eq_str k key then Some v else dict_get r key
  end.

(** [d.get(key, default)]. *)
Definition dict_get_default (d : dict) (key : string) (default : value)
  : value :=
  match dict_get d key with
  | Some v => v
  | None => default
  end.

(** [d[key] = v]: the item is replaced in place when the key is present
    and appended otherwise. *)
Fixpoint dict_set (d : dict) (key : string) (v : value) : dict :=
  match d with
  | [] => [(VStr key, v)]
  | (k, x) :: r =>
      if eq_str k key then (k, v) :: r else (k, x) :: dict_set r key v
  end.

(** [k in s] for a set [s] of [str] literals. *)
Definition in_str_set (k : value) (s : list string) : bool :=
  existsb (eq_str k) s.

End Py.

Import Py.

(** ** MetadataNormalizer: [_cast_load_info_metadata] *)

(** The inner function of [_cast_load_info_metadata] (lines 87-95). *)
Fixpoint _recursive_cast (value : Py.value) : Py.value :=
  match value with
  | VDict items =>
      VDict (map (fun kv => (fst kv, _recursive_cast (snd kv))) items)
  | VList items => VList (map _recursive_cast items)
  | VDateTime d => VStr (DateTime_str d)
  | VTimezone t => VStr (Timezone_str t)
  | _ => value
  end.

(** Line 97: the comprehension over the items of the mapping. *)
Definition _cast_load_info_metadata (mapping : dict) : dict :=
  map (fun kv => (fst kv, _recursive_cast (snd kv))) mapping.

(** ** Exceptions and fallible steps *)

(** The exceptions the bridge can let escape.  [Exception] is the one raised
    on line 159, with its argument tuple; [RuntimeError] is what a generator
    turns an escaping [StopIteration] into; [PipelineExecutionFailure] is
    whatever [Pipeline.run] raised; [DagsterInvalidMetadata] is what
    [AssetMaterialization] raises on metadata Dagster cannot store (the
    docstring on lines 73-76 quotes its message). *)
Inductive exn : Type :=
| Exception (args : list string)
| RuntimeError
| AttributeError
| TypeError
| PipelineExecutionFailure (what : string)
| DagsterInvalidMetadata.

Inductive result (A : Type) : Type :=
| Ok (a : A)
| Raise (e : exn).
Arguments Ok {A} a.
Arguments Raise {A} e.

Definition bind {A B : Type} (m : result A) (f : A -> result B) : result B :=
  match m with
  | Ok a => f a
  | Raise e => Raise e
  end.

Notation "x <- m ;; k" := (bind m (fun x => k))
  (at level 61, m at next level, right associativity).

(** [for x in v]: the items a [for] clause draws from [v]. *)
Definition iterate (v : value) : result (list value) :=
  match v with
  | VList items | VTuple items | VIterable _ items => Ok items
  | VDict items | VMapping _ items => Ok (map fst items)
  | VStr s => Ok (map (fun c => VStr (String c EmptyString)) (list_ascii_of_string s))
  | _ => Raise TypeError
  end.

(** [v.get(key, default)]: a [dict] and the other mappings have the
    method. *)
Definition get_method (v : value) (key : string) (default : value)
  : result value :=
  match v with
  | VDict items | VMapping _ items => Ok (dict_get_default items key default)
  | _ => Raise AttributeError
  end.

(** ** The pipeline engine and the orchestrator, as the bridge sees them *)

Record AssetKey := mkAssetKey { path : list string }.

(** [AssetKey(s)] for a [str]: a one-segment path. *)
Definition AssetKey_of_str (s : string) : AssetKey := mkAssetKey [s].

Fixpoint path_eqb (p q : list string) : bool :=
  match p, q with
  | [], [] => true
  | a :: p', b :: q' => String.eqb a b && path_eqb p' q'
  | _, _ => false
  end.

(** [a == b] on asset keys: the paths are equal. *)
Definition AssetKey_eqb (a b : AssetKey) : bool := path_eqb (path a) (path b).

Record DltResource := mkDltResource {
  name : string;
  source_name : string;
  table_name : string
}.

(** A dlt source: [resources] is [source.resources.values()], in order;
    [selection] holds the names of the resources marked selected, the ones
    a pipeline extracts. *)
Record DltSource := mkDltSource {
  resources : list DltResource;
  selection : list string
}.

(** [source.with_resources], given names of resources of the source: a
    clone in which the named resources, and only they, are marked selected.
    The clone's [resources] still lists every resource. *)
Definition with_resources (source : DltSource) (names : list string)
  : DltSource :=
  mkDltSource (resources source) names.

Record LoadInfo := mkLoadInfo { asdict : dict }.

Definition Kwargs := list (string * value).

(** What [Pipeline.run] does: it returns a load info or raises. *)
Inductive PipelineOutcome : Type :=
| Loaded (load_info : LoadInfo)
| Failed (what : string).

(** A pipeline is its [run] method. *)
Record Pipeline := mkPipeline {
  pipeline_run : DltSource -> Kwargs -> PipelineOutcome
}.

Inductive AutoMaterializePolicy : Type :=
| EagerPolicy
| LazyPolicy.

Definition META_KEY_SOURCE : string := "dagster_dlt/source".
Definition META_KEY_PIPELINE : string := "dagster_dlt/pipeline".

(** What an [AssetSpec]'s metadata holds under a key. *)
Inductive MetaValue : Type :=
| MetaSource (s : DltSource)
| MetaPipeline (p : Pipeline)
| MetaText (t : string)
| MetaNone.

Definition Metadata := list (string * MetaValue).

Fixpoint metadata_get (m : Metadata) (k : string) : option MetaValue :=
  match m with
  | [] => None
  | (k', v) :: r => if String.eqb k' k then Some v else metadata_get r k
  end.

Record AssetSpec := mkAssetSpec {
  key : AssetKey;
  deps : list AssetKey;
  auto_materialize_policy : option AutoMaterializePolicy;
  metadata : Metadata
}.

Record AssetsDefinition := mkAssetsDefinition {
  specs : list AssetSpec;
  op_name : option string;
  group_name : option string;
  compute_kind : string;
  can_subset : bool
}.

(** [assets_def.metadata_by_key], in spec order. *)
Definition metadata_by_key (d : AssetsDefinition)
  : list (AssetKey * Metadata) :=
  map (fun s => (key s, metadata s)) (specs d).

(** [assets_def.keys]. *)
Definition keys (d : AssetsDefinition) : list AssetKey :=
  map key (specs d).

Inductive ContextClass : Type :=
| AssetExecutionContext
| OpExecutionContext.

(** The execution context.  [selected_asset_keys] is a set in Python; it is
    kept here as the sequence in which iterating the set produces its
    members. *)
Record Context := mkContext {
  context_class : ContextClass;
  assets_def : AssetsDefinition;
  selected_asset_keys : list AssetKey;
  is_subset : bool
}.

(** ** ResourceKeyTranslator: [DltDagsterTranslator] *)

Record DltDagsterTranslator := mkTranslator {
  get_asset_key : DltResource -> AssetKey;
  get_deps_asset_keys : DltResource -> list AssetKey;
  get_auto_materialize_policy : DltResource -> option AutoMaterializePolicy
}.

(** The methods of the base class (lines 29-68). *)
Definition default_get_asset_key (resource : DltResource) : AssetKey :=
  AssetKey_of_str ("dlt_" ++ source_name resource ++ "_" ++ name resource).

Definition default_get_deps_asset_keys (resource : DltResource)
  : list AssetKey :=
  [AssetKey_of_str (source_name resource ++ "_" ++ name resource)].

Definition default_get_auto_materialize_policy (resource : DltResource)
  : option AutoMaterializePolicy := None.

Definition default_translator : DltDagsterTranslator := {|
  get_asset_key := default_get_asset_key;
  get_deps_asset_keys := default_get_deps_asset_keys;
  get_auto_materialize_policy := default_get_auto_materialize_policy
|}.

(** ** Metadata extraction: [extract_resource_metadata] *)

Definition dlt_base_metadata_types : list string :=
  [ "first_run"; "started_at"; "finished_at"; "dataset_name";
    "destination_name"; "destination_type" ].

(** The innermost clause of the comprehension on lines 127-132:
    [for job in ... if job.get("table_name") == resource.table_name]. *)
Fixpoint jobs_of_table (jobs : list value) (table : string)
  : result (list value) :=
  match jobs with
  | [] => Ok []
  | job :: rest =>
      t <- get_method job "table_name" VNone ;;
      selected <- jobs_of_table rest table ;;
      Ok (if eq_str t table then job :: selected else selected)
  end.

(** The outer clause: [for load_package in ... for job in
    load_package.get("jobs", [])]. *)
Fixpoint jobs_of_packages (load_packages : list value) (table : string)
  : result (list value) :=
  match load_packages with
  | [] => Ok []
  | load_package :: rest =>
      jobs <- get_method load_package "jobs" (VList []) ;;
      jobs <- iterate jobs ;;
      here <- jobs_of_table jobs table ;;
      later <- jobs_of_packages rest table ;;
      Ok (here ++ later)
  end.

Definition extract_resource_metadata (resource : DltResource)
  (load_info : LoadInfo) : result dict :=
  let load_info_dict := _cast_load_info_metadata (asdict load_info) in
  let base_metadata :=
    filter (fun kv => in_str_set (fst kv) dlt_base_metadata_types)
      load_info_dict in
  load_packages <-
    iterate (dict_get_default load_info_dict "load_packages" (VList [])) ;;
  jobs <- jobs_of_packages load_packages (table_name resource) ;;
  Ok (dict_set base_metadata "jobs" (VList jobs)).

(** ** SubsetFilter and MaterializationEmitter: [DltDagsterResource.run] *)

Inductive Materialization : Type :=
| MaterializeResult (asset_key : AssetKey) (metadata : dict)
| AssetMaterialization (asset_key : AssetKey) (metadata : dict).

(** What a run does that its caller can see. *)
Inductive Effect : Type :=
| PipelineRun (source : DltSource) (kwargs : Kwargs)
| Yield (m : Materialization).

(** A run of the generator to its end: the effects in order, and the
    exception that ended it, if one did. *)
Record Run := mkRun {
  trace : list Effect;
  raised : option exn
}.

Definition ConfigurationError : exn :=
  Exception [ "%s and %s must be defined on AssetSpec metadata";
              META_KEY_SOURCE; META_KEY_PIPELINE ].

(** Dagster is a library outside the repository.  Of the two record
    classes the bridge sees this much: [MaterializeResult] keeps the
    metadata mapping it is given, while [AssetMaterialization] normalises
    the mapping when it is built and raises [DagsterInvalidMetadata] when
    a value cannot be stored.  Which mappings it accepts is Dagster's
    business; an installation is taken with that decision. *)
Record Dagster := mkDagster { accepts_metadata : dict -> bool }.

(** [bool(v)] for what [first_asset_metadata.get(key)] returned, [None]
    standing for an absent key: line 158 tests this and nothing else. *)
Definition truthy (m : option MetaValue) : bool :=
  match m with
  | None | Some MetaNone => false
  | Some (MetaText t) => negb (String.eqb t "")
  | Some (MetaSource _) | Some (MetaPipeline _) => true
  end.

(** What passed line 158 is used as a source on line 167 (its [resources]
    attribute) and as a pipeline on line 184 (its [run] method); a value of
    another class has neither. *)
Definition as_source (m : option MetaValue) : option DltSource :=
  match m with
  | Some (MetaSource s) => Some s
  | _ => None
  end.

Definition as_pipeline (m : option MetaValue) : option Pipeline :=
  match m with
  | Some (MetaPipeline p) => Some p
  | _ => None
  end.

Definition selected (context : Context) (asset_key : AssetKey) : bool :=
  existsb (AssetKey_eqb asset_key) (selected_asset_keys context).

(** Lines 166-182: the pairing, and the source the pipeline will be run
    on. *)
Definition execution_pairing (context : Context) (dlt_source : DltSource)
  : list (AssetKey * DltResource) * DltSource :=
  let asset_key_dlt_source_resource_mapping :=
    combine (selected_asset_keys context) (resources dlt_source) in
  if is_subset context then
    let asset_key_dlt_source_resource_mapping :=
      filter (fun p => selected context (fst p))
        asset_key_dlt_source_resource_mapping in
    (asset_key_dlt_source_resource_mapping,
     with_resources dlt_source
       (map (fun p => name (snd p)) asset_key_dlt_source_resource_mapping))
  else (asset_key_dlt_source_resource_mapping, dlt_source).

(** Lines 188-192: the record of one entry, built for the class of the
    context. *)
Definition materialization (dagster : Dagster) (c : ContextClass)
  (asset_key : AssetKey) (metadata : dict) : result Materialization :=
  match c with
  | AssetExecutionContext => Ok (MaterializeResult asset_key metadata)
  | OpExecutionContext =>
      if accepts_metadata dagster metadata
      then Ok (AssetMaterialization asset_key metadata)
      else Raise DagsterInvalidMetadata
  end.

(** Lines 186-192: the loop over the pairing. *)
Fixpoint emit (dagster : Dagster) (c : ContextClass)
  (mapping : list (AssetKey * DltResource)) (load_info : LoadInfo) : Run :=
  match mapping with
  | [] => mkRun [] None
  | (asset_key, dlt_source_resource) :: rest =>
      match extract_resource_metadata dlt_source_resource load_info with
      | Raise e => mkRun [] (Some e)
      | Ok metadata =>
          match materialization dagster c asset_key metadata with
          | Raise e => mkRun [] (Some e)
          | Ok m =>
              let later := emit dagster c rest load_info in
              mkRun (Yield m :: trace later) (raised later)
          end
      end
  end.

Definition run (dagster : Dagster) (context : Context) (kwargs : Kwargs)
  : Run :=
  match metadata_by_key (assets_def context) with
  | [] => mkRun [] (Some RuntimeError)
  | (_, first_asset_metadata) :: _ =>
      let dlt_source := metadata_get first_asset_metadata META_KEY_SOURCE in
      let dlt_pipeline :=
        metadata_get first_asset_metadata META_KEY_PIPELINE in
      if negb (truthy dlt_source) || negb (truthy dlt_pipeline)
      then mkRun [] (Some ConfigurationError)
      else
        match as_source dlt_source with
        | None => mkRun [] (Some AttributeError)
        | Some dlt_source =>
            let (mapping, dlt_source) :=
              execution_pairing context dlt_source in
            match as_pipeline dlt_pipeline with
            | None => mkRun [] (Some AttributeError)
            | Some dlt_pipeline =>
                match pipeline_run dlt_pipeline dlt_source kwargs with
                | Failed what =>
                    mkRun [PipelineRun dlt_source kwargs]
                      (Some (PipelineExecutionFailure what))
                | Loaded load_info =>
                    let loop :=
                      emit dagster (context_class context) mapping
                        load_info in
                    mkRun (PipelineRun dlt_source kwargs :: trace loop)
                      (raised loop)
                end
            end
        end
  end.

(** ** UnitOfWorkBuilder: [dlt_assets] *)

Definition dlt_assets (dlt_source : DltSource) (dlt_pipeline : Pipeline)
  (name group_name : option string)
  (dlt_dagster_translator : DltDagsterTranslator) : AssetsDefinition :=
  let specs :=
    map (fun dlt_source_resource =>
           mkAssetSpec
             (get_asset_key dlt_dagster_translator dlt_source_resource)
             (get_deps_asset_keys dlt_dagster_translator dlt_source_resource)
             (get_auto_materialize_policy dlt_dagster_translator
                dlt_source_resource)
             [ (META_KEY_SOURCE, MetaSource dlt_source);
               (META_KEY_PIPELINE, MetaPipeline dlt_pipeline) ])
      (resources dlt_source) in
  mkAssetsDefinition specs name group_name "dlt" true.

(** ** The same normaliser over a store of objects

    Python values are references to objects.  To speak about mutation, the
    normaliser is given a second reading in which an object lives at an
    address of a store, containers hold addresses, and every comprehension
    and every [str] call allocates. *)

Module Store.

Definition addr := nat.

Inductive obj : Type :=
| ONone
| OBool (b : bool)
| OInt (z : Z)
| OStr (s : string)
| ODateTime (d : DateTime)
| OTimezone (t : Timezone)
| OObject (class_name : string) (ident : nat)
| OTuple (items : list addr)
| OList (items : list addr)
| ODict (items : list (addr * addr))
| OIterable (class_name : string) (items : list addr)
| OMapping (class_name : string) (items : list (addr * addr)).

Definition heap := list obj.

Definition alloc (h : heap) (o : obj) : heap * addr :=
  (h ++ [o], List.length h).

(** A comprehension [[f(x) for x in items]], the store threaded through
    the calls from left to right. *)
Fixpoint map_at (f : heap -> addr -> option (heap * addr)) (h : heap)
  (items : list addr) : option (heap * list addr) :=
  match items with
  | [] => Some (h, [])
  | a :: rest =>
      match f h a with
      | None => None
      | Some (h1, a') =>
          match map_at f h1 rest with
          | None => None
          | Some (h2, rest') => Some (h2, a' :: rest')
          end
      end
  end.

(** [_recursive_cast] on the object at [a].  The store may hold cycles,
    so the recursion is bounded by [fuel]; [None] is a bound that was too
    small (or an address outside the store). *)
Fixpoint _recursive_cast_at (fuel : nat) (h : heap) (a : addr)
  : option (heap * addr) :=
  match fuel with
  | O => None
  | S fuel =>
      match nth_error h a with
      | None => None
      | Some (ODict items) =>
          match map_at (_recursive_cast_at fuel) h (map snd items) with
          | None => None
          | Some (h', values) =>
              Some (alloc h' (ODict (combine (map fst items) values)))
          end
      | Some (OList items) =>
          match map_at (_recursive_cast_at fuel) h items with
          | None => None
          | Some (h', values) => Some (alloc h' (OList values))
          end
      | Some (ODateTime d) => Some (alloc h (OStr (DateTime_str d)))
      | Some (OTimezone t) => Some (alloc h (OStr (Timezone_str t)))
      | Some _ => Some (h, a)
      end
  end.

(** [denotes h a v]: the object at [a], followed through the store, is the
    finite value [v].  Only a finite acyclic structure denotes a value. *)
#[warnings="-register-all"]
Inductive denotes (h : heap) : addr -> value -> Prop :=
| denotes_None a :
    nth_error h a = Some ONone -> denotes h a VNone
| denotes_Bool a b :
    nth_error h a = Some (OBool b) -> denotes h a (VBool b)
| denotes_Int a z :
    nth_error h a = Some (OInt z) -> denotes h a (VInt z)
| denotes_Str a s :
    nth_error h a = Some (OStr s) -> denotes h a (VStr s)
| denotes_DateTime a d :
    nth_error h a = Some (ODateTime d) -> denotes h a (VDateTime d)
| denotes_Timezone a t :
    nth_error h a = Some (OTimezone t) -> denotes h a (VTimezone t)
| denotes_Object a c i :
    nth_error h a = Some (OObject c i) -> denotes h a (VObject c i)
| denotes_Tuple a items vs :
    nth_error h a = Some (OTuple items) ->
    Forall2 (denotes h) items vs ->
    denotes h a (VTuple vs)
| denotes_List a items vs :
    nth_error h a = Some (OList items) ->
    Forall2 (denotes h) items vs ->
    denotes h a (VList vs)
| denotes_Dict a items kvs :
    nth_error h a = Some (ODict items) ->
    Forall2 (fun p q => denotes h (fst p) (fst q) /\
                        denotes h (snd p) (snd q)) items kvs ->
    denotes h a (VDict kvs)
| denotes_Iterable a c items vs :
    nth_error h a = Some (OIterable c items) ->
    Forall2 (denotes h) items vs ->
    denotes h a (VIterable c vs)
| denotes_Mapping a c items kvs :
    nth_error h a = Some (OMapping c items) ->
    Forall2 (fun p q => denotes h (fst p) (fst q) /\
                        denotes h (snd p) (snd q)) items kvs ->
    denotes h a (VMapping c kvs).

(** How deep [_recursive_cast] descends into a value. *)
Fixpoint depth (v : value) : nat :=
  match v with
  | VList items => S (list_max (map depth items))
  | VDict items => S (list_max (map (fun kv => depth (snd kv)) items))
  | _ => O
  end.

(** Whether the normaliser answers with an object of its own making. *)
Definition rebuilt (v : value) : bool :=
  match v with
  | VDict _ | VList _ | VDateTime _ | VTimezone _ => true
  | _ => false
  end.

(** One call that returns, leaves the store in place and answers with an
    object for the normal form of [v]. *)
Definition cast_ok (fuel : nat) (h : heap) (a : addr) (v : value) : Prop :=
  exists h' a',
    _recursive_cast_at fuel h a = Some (h', a') /\
    (exists fresh, h' = h ++ fresh) /\
    denotes h' a' (_recursive_cast v).

End Store.

(** ** What the specification asks for *)

Definition is_dict (v : value) : bool :=
  match v with VDict _ => true | _ => false end.

Definition is_list (v : value) : bool :=
  match v with VList _ => true | _ => false end.

(** The recognised rich kinds: pendulum's [DateTime] and [Timezone]. *)
Definition is_rich (v : value) : bool :=
  match v with VDateTime _ | VTimezone _ => true | _ => false end.

(** The canonical string form of a rich value. *)
Definition canonical (v : value) : value :=
  match v with
  | VDateTime d => VStr (DateTime_str d)
  | VTimezone t => VStr (Timezone_str t)
  | _ => v
  end.

(** The contract of section 4.3, clause by clause, as a relation between a
    value and its normal form. *)
#[warnings="-register-all"]
Inductive normalizes : value -> value -> Prop :=
| normalizes_mapping items items' :
    map fst items' = map fst items ->
    Forall2 normalizes (map snd items) (map snd items') ->
    normalizes (VDict items) (VDict items')
| normalizes_sequence items items' :
    Forall2 normalizes items items' ->
    normalizes (VList items) (VList items')
| normalizes_rich v :
    is_rich v = true -> normalizes v (canonical v)
| normalizes_other v :
    is_dict v = false -> is_list v = false -> is_rich v = false ->
    normalizes v v.

(** A value in which no rich value occurs, at any position. *)
Fixpoint rich_free (v : value) : bool :=
  match v with
  | VDateTime _ | VTimezone _ => false
  | VTuple items | VList items | VIterable _ items =>
      forallb rich_free items
  | VDict items | VMapping _ items =>
      forallb (fun kv => rich_free (fst kv) && rich_free (snd kv)) items
  | _ => true
  end.

(** The load packages of a run report, and the job records of one. *)
Definition load_packages_of (report : dict) : list value :=
  match dict_get report "load_packages" with
  | Some (VList packages) => packages
  | _ => []
  end.

Definition jobs_of (load_package : value) : list value :=
  match load_package with
  | VDict items =>
      match dict_get items "jobs" with
      | Some (VList jobs) => jobs
      | _ => []
      end
  | _ => []
  end.

(** All job records of a report, across its load packages, in sequence. *)
Definition all_jobs (report : dict) : list value :=
  flat_map jobs_of (load_packages_of report).

(** The table-name field of a job record equals [table]. *)
Definition has_table (table : string) (job : value) : bool :=
  match job with
  | VDict items => eq_str (dict_get_default items "table_name" VNone) table
  | _ => false
  end.

(** The shape dlt gives a load info: [load_packages] is a list of dicts,
    the [jobs] of each a list of dicts, and a table name is not a pendulum
    object. *)
Definition is_job (v : value) : bool :=
  match v with
  | VDict items => negb (is_rich (dict_get_default items "table_name" VNone))
  | _ => false
  end.

Definition is_load_package (v : value) : bool :=
  match v with
  | VDict items =>
      match dict_get items "jobs" with
      | None => true
      | Some (VList jobs) => forallb is_job jobs
      | Some _ => false
      end
  | _ => false
  end.

Definition well_formed (report : dict) : bool :=
  match dict_get report "load_packages" with
  | None => true
  | Some (VList packages) => forallb is_load_package packages
  | Some _ => false
  end.

(** The pairing section 4.2 describes: every resource with the key the
    translator derives for it, in collection order, and for a subset run
    only those whose key was requested. *)
Definition derived_pairing (translator : DltDagsterTranslator)
  (context : Context) (dlt_source : DltSource)
  : list (AssetKey * DltResource) :=
  let pairing :=
    map (fun r => (get_asset_key translator r, r)) (resources dlt_source) in
  if is_subset context
  then filter (fun p => selected context (fst p)) pairing
  else pairing.

(** A full run of a unit built by [dlt_assets]: nothing was deselected, so
    the selected keys are the keys of the unit. *)
Definition full_run (context : Context) : Prop :=
  is_subset context = false /\
  Permutation (selected_asset_keys context) (keys (assets_def context)).

(** The materializations among the effects of a run. *)
Definition yielded (r : Run) : list Materialization :=
  flat_map (fun e => match e with Yield m => [m] | _ => [] end) (trace r).

(** The pipeline executions among the effects of a run. *)
Definition executed (r : Run) : list DltSource :=
  flat_map (fun e => match e with PipelineRun s _ => [s] | _ => [] end)
    (trace r).

(** No underscore in a name. *)
Fixpoint no_underscore (s : string) : bool :=
  match s with
  | EmptyString => true
  | String c rest => negb (Ascii.eqb c "_"%char) && no_underscore rest
  end.

(** ** The scenarios of section 8 *)

Module Scenario.

Definition alpha : DltResource := mkDltResource "alpha" "src" "orders".
Definition beta : DltResource := mkDltResource "beta" "src" "customers".
Definition source : DltSource :=
  mkDltSource [alpha; beta] ["alpha"; "beta"].

Definition orders_job : value :=
  VDict [ (VStr "table_name", VStr "orders");
          (VStr "created_at", VDateTime (mkDateTime "2024-01-01T00:00:00+00:00")) ].
Definition customers_job : value :=
  VDict [ (VStr "table_name", VStr "customers");
          (VStr "file_size", VInt 12) ].

Definition load_info : LoadInfo :=
  mkLoadInfo
    [ (VStr "first_run", VBool true);
      (VStr "started_at", VDateTime (mkDateTime "2024-01-01T00:00:00+00:00"));
      (VStr "pipeline", VDict [ (VStr "pipeline_name", VStr "p") ]);
      (VStr "load_packages",
        VList [ VDict [ (VStr "load_id", VStr "1");
                        (VStr "jobs", VList [orders_job]) ];
                VDict [ (VStr "load_id", VStr "2");
                        (VStr "jobs", VList [customers_job]) ] ]) ].

Definition pipeline : Pipeline := mkPipeline (fun _ _ => Loaded load_info).

Definition unit_of_work : AssetsDefinition :=
  dlt_assets source pipeline None None default_translator.

(** Scenario A: a full run. *)
Definition full : Context :=
  mkContext AssetExecutionContext unit_of_work
    [default_get_asset_key alpha; default_get_asset_key beta] false.

(** Scenario B: a subset run that asks for [beta] alone. *)
Definition only_beta : Context :=
  mkContext AssetExecutionContext unit_of_work
    [default_get_asset_key beta] true.

(** Scenario E: a key no resource derives. *)
Definition gamma_key : AssetKey := AssetKey_of_str "dlt_src_gamma".

(** A unit whose first node lost its pipeline reference. *)
Definition broken_unit : AssetsDefinition :=
  mkAssetsDefinition
    [ mkAssetSpec (default_get_asset_key alpha) [] None
        [ (META_KEY_SOURCE, MetaSource source) ] ]
    None None "dlt" true.
Definition broken : Context :=
  mkContext OpExecutionContext broken_unit
    [default_get_asset_key alpha] false.

(** A store holding a list of one timestamp and one tuple. *)
Definition store : Store.heap :=
  [ Store.ODateTime (mkDateTime "2024-01-01T00:00:00+00:00");
    Store.OInt 7;
    Store.OTuple [0; 1];
    Store.OList [0; 2] ].

Definition stored_value : value :=
  VList [ VDateTime (mkDateTime "2024-01-01T00:00:00+00:00");
          VTuple [ VDateTime (mkDateTime "2024-01-01T00:00:00+00:00");
                   VInt 7 ] ].

End Scenario.

(** ** Observations on records and on normal forms *)

(** The key a completion record is reported under, and its metadata. *)
Definition materialization_key (m : Materialization) : AssetKey :=
  match m with
  | MaterializeResult asset_key _ => asset_key
  | AssetMaterialization asset_key _ => asset_key
  end.

Definition materialization_metadata (m : Materialization) : dict :=
  match m with
  | MaterializeResult _ metadata => metadata
  | AssetMaterialization _ metadata => metadata
  end.

Definition is_materialize_result (m : Materialization) : bool :=
  match m with
  | MaterializeResult _ _ => true
  | AssetMaterialization _ _ => false
  end.



(** A reference is missing from the metadata: the key is absent, or holds
    [None] or an empty text, the values Python counts as false among those
    a metadata entry is modelled with. *)
Definition missing (entry : option MetaValue) : Prop :=
  entry = None \/ entry = Some MetaNone \/ entry = Some (MetaText "").


(** No pendulum object at a position [_recursive_cast] visits: below dict
    values and list items, at any depth. *)
Fixpoint pendulum_free (v : value) : bool :=
  match v with
  | VDateTime _ | VTimezone _ => false
  | VList items => forallb pendulum_free items
  | VDict items => forallb (fun kv => pendulum_free (snd kv)) items
  | _ => true
  end.

(** [job.get("table_name") == table] for a record with a [get] method, a
    [dict] or another mapping. *)
Definition table_name_is (table : string) (job : value) : bool :=
  match job with
  | VDict items | VMapping _ items =>
      eq_str (dict_get_default items "table_name" VNone) table
  | _ => false
  end.

(** A value with a [get] method. *)
Definition has_get (v : value) : bool :=
  match v with
  | VDict _ | VMapping _ _ => true
  | _ => false
  end.

(** A value [for] cannot iterate over. *)
Definition not_iterable (v : value) : bool :=
  match v with
  | VNone | VBool _ | VInt _ | VObject _ _ => true
  | _ => false
  end.

(** Two fallible steps that both return, or raise the same exception. *)
Definition same_fate {A : Type} (x y : result A) : Prop :=
  match x, y with
  | Ok _, Ok _ => True
  | Raise e, Raise e' => e = e'
  | _, _ => False
  end.

(** The references lines 152-163 resolve, when both are there. *)
Definition stored_references (context : Context)
  : option (DltSource * Pipeline) :=
  match metadata_by_key (assets_def context) with
  | [] => None
  | (_, first_asset_metadata) :: _ =>
      match as_source (metadata_get first_asset_metadata META_KEY_SOURCE),
            as_pipeline (metadata_get first_asset_metadata META_KEY_PIPELINE)
      with
      | Some dlt_source, Some dlt_pipeline => Some (dlt_source, dlt_pipeline)
      | _, _ => None
      end
  end.

(** More data for the examples. *)
Module Cases.

(** A report whose [load_packages] entry is [None]. *)
Definition null_packages : LoadInfo :=
  mkLoadInfo [ (VStr "first_run", VBool false);
               (VStr "load_packages", VNone) ].

(** A report without a [load_packages] entry. *)
Definition no_packages : LoadInfo :=
  mkLoadInfo [ (VStr "dataset_name", VStr "raw");
               (VStr "finished_at",
                VDateTime (mkDateTime "2024-01-02T00:00:00+00:00")) ].

(** A unit written out by hand over the scenario source: beside the nodes
    of [alpha] and [beta] it holds a node [gamma] that no resource of the
    source derives. *)
Definition node (key : AssetKey) : AssetSpec :=
  mkAssetSpec key [] None
    [ (META_KEY_SOURCE, MetaSource Scenario.source);
      (META_KEY_PIPELINE, MetaPipeline Scenario.pipeline) ].

Definition hand_built_unit : AssetsDefinition :=
  mkAssetsDefinition
    [ node (default_get_asset_key Scenario.alpha);
      node (default_get_asset_key Scenario.beta);
      node Scenario.gamma_key ]
    None None "dlt" true.

(** Scenario E: a subset run of that unit that asks for [gamma] alone. *)
Definition only_gamma : Context :=
  mkContext AssetExecutionContext hand_built_unit [Scenario.gamma_key] true.

(** A unit whose first node holds a text where the source belongs. *)
Definition mistyped_unit : AssetsDefinition :=
  mkAssetsDefinition
    [ mkAssetSpec (default_get_asset_key Scenario.alpha) [] None
        [ (META_KEY_SOURCE, MetaText "github");
          (META_KEY_PIPELINE, MetaPipeline Scenario.pipeline) ] ]
    None None "dlt" true.
Definition mistyped : Context :=
  mkContext AssetExecutionContext mistyped_unit
    [default_get_asset_key Scenario.alpha] false.

(** An installation of Dagster that stores every mapping, and one that
    stores none. *)
Definition lenient : Dagster := mkDagster (fun _ => true).

(** An op-level full run of the scenario unit. *)
Definition op_full : Context :=
  mkContext OpExecutionContext Scenario.unit_of_work
    [default_get_asset_key Scenario.alpha; default_get_asset_key Scenario.beta]
    false.

(** A pipeline that fails. *)
Definition failing_pipeline : Pipeline :=
  mkPipeline (fun _ _ => Failed "destination unreachable").

Definition failing_unit : AssetsDefinition :=
  dlt_assets Scenario.source failing_pipeline None None default_translator.

Definition failing : Context :=
  mkContext AssetExecutionContext failing_unit
    [default_get_asset_key Scenario.alpha; default_get_asset_key Scenario.beta]
    false.

(** An installation of Dagster that stores the metadata of the [orders]
    table and no other. *)
Definition picky : Dagster :=
  mkDagster (fun metadata =>
               match dict_get metadata "jobs" with
               | Some (VList jobs) => forallb (table_name_is "orders") jobs
               | _ => false
               end).

End Cases.

(** * The Snowflake replication assets and the Hightouch component *)

(** ** The strings and the environment Python offers *)

Module Os.

Definition Env := list (string * string).

(** [os.getenv(name, default)]. *)
Fixpoint getenv (env : Env) (name default : string) : string :=
  match env with
  | [] => default
  | (n, v) :: rest => if String.eqb n name then v else getenv rest name default
  end.

(** The line feed of a triple-quoted literal. *)
Definition nl : string := String "010" EmptyString.

(** [s.replace(old, new)] for a non-empty [old]: the text is read from the
    left, every occurrence of [old] found becomes [new], and reading goes
    on after the occurrence.  [skip] counts the characters of an occurrence
    that are still to be passed over. *)
Fixpoint replace_from (old new : string) (skip : nat) (s : string) : string :=
  match s with
  | EmptyString => EmptyString
  | String c rest =>
      match skip with
      | S k => replace_from old new k rest
      | O =>
          if String.prefix old s
          then new ++ replace_from old new (String.length old - 1) rest
          else String c (replace_from old new 0 rest)
      end
  end.

(** [s.replace("", new)]: [new] before every character and at the end. *)
Fixpoint replace_empty (new : string) (s : string) : string :=
  match s with
  | EmptyString => new
  | String c rest => new ++ String c (replace_empty new rest)
  end.

Definition replace (s old new : string) : string :=
  match old with
  | EmptyString => replace_empty new s
  | _ => replace_from old new 0 s
  end.

(** [s[:-n]] for a positive [n]: [s] without its last [n] characters, and
    the empty string when [s] has no more than [n]. *)
Definition drop_last (n : nat) (s : string) : string :=
  String.substring 0 (String.length s - n) s.

(** [old] occurs in [s]. *)
Fixpoint occurs (old s : string) : bool :=
  String.prefix old s ||
  match s with
  | EmptyString => false
  | String _ rest => occurs old rest
  end.

(** [path[-1]]: the last segment, [None] standing for the [IndexError] of
    an empty path. *)
Fixpoint path_last (p : list string) : option string :=
  match p with
  | [] => None
  | [s] => Some s
  | _ :: rest => path_last rest
  end.

End Os.

(** ** [workspace_replication.py] *)

Module Replication.
Import Os.

Inductive AutomationCondition : Type :=
| on_cron (schedule : string)
| any_deps_missing
| cond_and (a b : AutomationCondition)
| cond_not (a : AutomationCondition).

(** [global_freshness_policy] of [dagster_open_platform.definitions], a
    constant of the repository that is not under src. *)
Inductive FreshnessPolicy : Type :=
| global_freshness_policy.

Record Spec := mkSpec {
  spec_key : AssetKey;
  spec_deps : list AssetKey;
  automation_condition : AutomationCondition;
  internal_freshness_policy : FreshnessPolicy
}.

Definition daily : AutomationCondition :=
  cond_and (on_cron "@daily") (cond_not any_deps_missing).

(** Lines 16-26: the spec of the stage of one workspace asset. *)
Definition stage_spec (asset_key : AssetKey) : option Spec :=
  match path_last (path asset_key) with
  | None => None
  | Some last =>
      Some (mkSpec
              (mkAssetKey
                 ["aws"; "cloud-prod"; ("workspace_staging_" ++ last)%string])
              [asset_key] daily global_freshness_policy)
  end.

(** Lines 69-79: the spec of the external table of one stage. *)
Definition external_table_spec (asset_key : AssetKey) : option Spec :=
  match path_last (path asset_key) with
  | None => None
  | Some last =>
      Some (mkSpec
              (mkAssetKey ["aws"; "cloud_prod"; (last ++ "_ext")%string])
              [asset_key] daily global_freshness_policy)
  end.

(** The comprehensions of lines 15-28 and 68-81: one spec per key, and the
    [IndexError] of the first key without a segment. *)
Fixpoint specs_for (spec : AssetKey -> option Spec) (keys : list AssetKey)
  : option (list Spec) :=
  match keys with
  | [] => Some []
  | k :: rest =>
      match spec k with
      | None => None
      | Some s =>
          match specs_for spec rest with
          | None => None
          | Some later => Some (s :: later)
          end
      end
  end.

(** What an asset function does that its caller and the warehouse see:
    the [with] block entered and left, the calls of [cur.execute] and the
    lines logged. *)
Inductive Event : Type :=
| Enter
| Execute (statement : string)
| LogInfo (message : string)
| Exit.

(** What ends an asset function early: the [IndexError] of [path[-1]], or
    an exception of the Snowflake connector, with its message. *)
Inductive Failure : Type :=
| IndexError
| WarehouseError (what : string).

(** What [cur.fetchall()] does: the rows, or an exception. *)
Inductive Answer : Type :=
| Rows (rows : list value)
| Refused (what : string).

(** The Snowflake resource as the two functions use it.  Each call can
    raise: [get_connection] on entering the [with] block, [conn.cursor()],
    [cur.execute(statement)] after the statements the cursor has taken so
    far, and [cur.fetchall()] after them.  [Some what] is the exception
    raised, [None] a call that returns. *)
Record Warehouse := mkWarehouse {
  get_connection : option string;
  cursor : option string;
  execute : list string -> string -> option string;
  fetchall : list string -> Answer
}.

(** The events of a function and the exception that ended it, if one
    did. *)
Definition Outcome : Type := (list Event * option Failure)%type.

(** [cur.execute(statement)] and what follows it in the block.  [history]
    holds the statements the cursor has taken; a statement the warehouse
    refuses ends the block. *)
Definition cur_execute (warehouse : Warehouse) (history : list string)
  (statement : string) (rest : list string -> Outcome) : Outcome :=
  match execute warehouse history statement with
  | Some what => ([Execute statement], Some (WarehouseError what))
  | None =>
      let later := rest (history ++ [statement]) in
      (Execute statement :: fst later, snd later)
  end.

(** [log.info(message)] and what follows it. *)
Definition log_info (message : string) (later : Outcome) : Outcome :=
  (LogInfo message :: fst later, snd later).

(** [with snowflake_sf.get_connection() as conn: cur = conn.cursor(); ...]:
    a connection that cannot be made raises before the block is entered;
    the block, once entered, is left on every path. *)
Definition with_connection (warehouse : Warehouse) (block : Outcome)
  : Outcome :=
  match get_connection warehouse with
  | Some what => ([], Some (WarehouseError what))
  | None =>
      match cursor warehouse with
      | Some what => ([Enter; Exit], Some (WarehouseError what))
      | None => ([Enter] ++ fst block ++ [Exit], snd block)
      end
  end.

Definition ACCOUNT_NAME : string := "AWS_WORKSPACE_REPLICATION_ACCOUNT_NAME".

(** Lines 45 and 93. *)
Definition use_schema (env : Env) : string :=
  "USE SCHEMA AWS." ++ replace (getenv env ACCOUNT_NAME "") "-" "_" ++ ";".

(** Lines 33-37. *)
Definition integration_prefix (env : Env) : string :=
  if String.eqb (getenv env ACCOUNT_NAME "") "cloud-prod"
  then "CLOUD_PROD" else "DOGFOOD".

(** Line 43. *)
Definition object_name_of (stage_name : string) : string :=
  replace stage_name "workspace_staging_" "".

(** Lines 48-54.  [BUCKET_NAME] and [OUTPUT_PREFIX] are constants of
    [dagster_open_platform.defs.aws.constants], not under src; they are
    arguments here. *)
Definition create_stage_query (BUCKET_NAME OUTPUT_PREFIX : string)
  (env : Env) (stage_name : string) : string :=
  nl ++ "                CREATE STAGE " ++ stage_name
  ++ nl ++ "                URL='s3://" ++ BUCKET_NAME ++ "/" ++ OUTPUT_PREFIX
  ++ "/" ++ object_name_of stage_name ++ "'"
  ++ nl ++ "                STORAGE_INTEGRATION = " ++ integration_prefix env
  ++ "_WORKSPACE_REPLICATION"
  ++ nl ++ "                FILE_FORMAT = (TYPE = 'JSON', COMPRESSION = 'AUTO', STRIP_OUTER_ARRAY = TRUE)"
  ++ nl ++ "                DIRECTORY = (ENABLE = TRUE);"
  ++ nl ++ "            ".

Definition show_stages (stage_name : string) : string :=
  "SHOW STAGES LIKE '" ++ stage_name ++ "';".

Definition alter_stage (stage_name : string) : string :=
  "ALTER STAGE " ++ stage_name ++ " REFRESH;".

(** Lines 41-62: the loop over the selected keys. *)
Fixpoint stages_loop (BUCKET_NAME OUTPUT_PREFIX : string) (env : Env)
  (warehouse : Warehouse) (history : list string) (keys : list AssetKey)
  : Outcome :=
  match keys with
  | [] => ([], None)
  | key :: rest =>
      match path_last (path key) with
      | None => ([], Some IndexError)
      | Some stage_name =>
          cur_execute warehouse history (use_schema env) (fun history =>
          cur_execute warehouse history (show_stages stage_name)
            (fun history =>
          match fetchall warehouse history with
          | Refused what => ([], Some (WarehouseError what))
          | Rows [] =>
              cur_execute warehouse history
                (create_stage_query BUCKET_NAME OUTPUT_PREFIX env stage_name)
                (fun history =>
              log_info ("Created stage " ++ stage_name)
                (stages_loop BUCKET_NAME OUTPUT_PREFIX env warehouse
                   history rest))
          | Rows _ =>
              cur_execute warehouse history (alter_stage stage_name)
                (fun history =>
              log_info ("Stage " ++ stage_name ++ " refreshed")
                (stages_loop BUCKET_NAME OUTPUT_PREFIX env warehouse
                   history rest))
          end))
      end
  end.

(** Lines 30-62. *)
Definition workspace_replication_aws_stages (BUCKET_NAME OUTPUT_PREFIX : string)
  (env : Env) (warehouse : Warehouse) (selected_asset_keys : list AssetKey)
  : Outcome :=
  with_connection warehouse
    (cur_execute warehouse [] "USE ROLE AWS_WRITER;" (fun history =>
     stages_loop BUCKET_NAME OUTPUT_PREFIX env warehouse history
       selected_asset_keys)).

(** Line 91. *)
Definition stage_name_of (table_name : string) : string :=
  drop_last 4 table_name.

(** Lines 96-109. *)
Definition create_table_query (table_name : string) : string :=
  nl ++ "                CREATE OR REPLACE EXTERNAL TABLE " ++ table_name ++ "("
  ++ nl ++ "                    FILENAME VARCHAR AS METADATA$FILENAME,"
  ++ nl ++ "                    REPLICATION_DATE DATE AS cast(split_part(METADATA$FILENAME, '/', 3) as date),"
  ++ nl ++ "                    ORGANIZATION_ID VARCHAR AS split_part(METADATA$FILENAME, '/', 4),"
  ++ nl ++ "                    DEPLOYMENT_ID VARCHAR AS split_part(METADATA$FILENAME, '/', 5),"
  ++ nl ++ "                    CODE_LOCATION VARCHAR AS replace(split_part(METADATA$FILENAME, '/', 6), '.json')"
  ++ nl ++ "                )"
  ++ nl ++ "                PARTITION BY (REPLICATION_DATE)"
  ++ nl ++ "                LOCATION = @" ++ stage_name_of table_name
  ++ nl ++ "                FILE_FORMAT = (TYPE = 'JSON', COMPRESSION = 'AUTO', STRIP_OUTER_ARRAY = TRUE)"
  ++ nl ++ "                AUTO_REFRESH = FALSE"
  ++ nl ++ "                COMMENT = 'External table for stage "
  ++ stage_name_of table_name ++ " from workspace replication';"
  ++ nl ++ "            ".

(** Lines 89-111. *)
Fixpoint tables_loop (env : Env) (warehouse : Warehouse)
  (history : list string) (keys : list AssetKey) : Outcome :=
  match keys with
  | [] => ([], None)
  | key :: rest =>
      match path_last (path key) with
      | None => ([], Some IndexError)
      | Some table_name =>
          cur_execute warehouse history (use_schema env) (fun history =>
          cur_execute warehouse history (create_table_query table_name)
            (fun history =>
          log_info ("Created external table " ++ table_name)
            (tables_loop env warehouse history rest)))
      end
  end.

(** Lines 83-111. *)
Definition workspace_replication_aws_external_tables (env : Env)
  (warehouse : Warehouse) (selected_asset_keys : list AssetKey) : Outcome :=
  with_connection warehouse
    (cur_execute warehouse [] "USE ROLE AWS_WRITER;" (fun history =>
     tables_loop env warehouse history selected_asset_keys)).

(** The statements among the events, and the log lines. *)
Definition statements (events : list Event) : list string :=
  flat_map (fun e => match e with Execute q => [q] | _ => [] end) events.

Definition log_lines (events : list Event) : list string :=
  flat_map (fun e => match e with LogInfo m => [m] | _ => [] end) events.

(** A warehouse that raises nothing and answers every [fetchall] with the
    same rows. *)
Definition answering (rows : list value) : Warehouse :=
  mkWarehouse None None (fun _ _ => None) (fun _ => Rows rows).

Definition no_stage_exists : Warehouse := answering [].

(** A warehouse that refuses every statement naming [word]. *)
Definition refusing (word : string) : Warehouse :=
  mkWarehouse None None
    (fun _ statement =>
       if occurs word statement then Some "SQL compilation error" else None)
    (fun _ => Rows []).

(** A warehouse none of whose calls raises. *)
Definition obliging (warehouse : Warehouse) : Prop :=
  get_connection warehouse = None /\
  cursor warehouse = None /\
  (forall history statement, execute warehouse history statement = None) /\
  (forall history, exists rows, fetchall warehouse history = Rows rows).

End Replication.

(** ** [lib/hightouch/component.py] *)

Module Hightouch.
Import Os.

(** Modelled from the spec: the result object of [sync_and_poll], declared
    in [dagster_open_platform.defs.hightouch.py.resources], which is not
    under src.  Section 1 of the specification has it as a result object
    with typed fields; the three fields are the ones [_assets] reads. *)
Record HightouchOutput := mkHightouchOutput {
  sync_details : dict;
  sync_run_details : dict;
  destination_details : dict
}.

(** Lines 31-42: the body of [_assets].  [sync_and_poll] is the method of
    the Hightouch resource. *)
Definition _assets (env : Env) (sync_id_env_var : string)
  (sync_and_poll : string -> result HightouchOutput) : result dict :=
  result <- sync_and_poll (getenv env sync_id_env_var "") ;;
  failed_rows <-
    get_method
      (dict_get_default (sync_run_details result) "failedRows" (VDict []))
      "addedCount" VNone ;;
  Ok [ (VStr "sync_details", VDict (sync_details result));
       (VStr "sync_run_details", VDict (sync_run_details result));
       (VStr "destination_details", VDict (destination_details result));
       (VStr "query_size",
        dict_get_default (sync_run_details result) "querySize" VNone);
       (VStr "completion_ratio",
        dict_get_default (sync_run_details result) "completionRatio" VNone);
       (VStr "failed_rows", failed_rows) ].

End Hightouch.

(** * Properties *)

(** ** The normaliser on values *)

Lemma map_ext_Forall (A B : Type) (f g : A -> B) (l : list A) :
  Forall (fun x => f x = g x) l -> map f l = map g l.
Proof.
  induction 1 as [|x l Hx _ IH]; simpl; [reflexivity|].
  now rewrite Hx, IH.
Qed.

Lemma _recursive_cast_other (v : value) :
  is_dict v = false -> is_list v = false -> is_rich v = false ->
  _recursive_cast v = v.
Proof.
  destruct v; simpl; intros Hd Hl Hr; try reflexivity; discriminate.
Qed.

Lemma _recursive_cast_rich (v : value) :
  is_rich v = true -> _recursive_cast v = canonical v.
Proof.
  destruct v; simpl; intros H; try discriminate; reflexivity.
Qed.

Lemma _recursive_cast_keys (items : dict) :
  map fst (map (fun kv => (fst kv, _recursive_cast (snd kv))) items)
  = map fst items.
Proof.
  rewrite map_map. simpl. reflexivity.
Qed.

Lemma _recursive_cast_values (items : dict) :
  map snd (map (fun kv => (fst kv, _recursive_cast (snd kv))) items)
  = map _recursive_cast (map snd items).
Proof.
  now rewrite !map_map.
Qed.

Lemma _recursive_cast_normalizes (v : value) :
  normalizes v (_recursive_cast v).
Proof.
  induction v as [| | | | | | | l IH | l IH | d IH | c l IH | c d IH]
    using value_deep_ind;
    simpl;
    try (apply normalizes_other; reflexivity).
  - apply (normalizes_rich (VDateTime d)). reflexivity.
  - apply (normalizes_rich (VTimezone t)). reflexivity.
  - apply normalizes_sequence.
    induction IH; simpl; constructor; assumption.
  - apply normalizes_mapping.
    + apply _recursive_cast_keys.
    + rewrite _recursive_cast_values.
      induction IH as [|kv d [_ Hv] _ IHd]; simpl; constructor; assumption.
Qed.

Lemma Forall2_map_eq (A B : Type) (f : A -> B) (l : list A) (l' : list B) :
  Forall2 (fun x y => y = f x) l l' -> l' = map f l.
Proof.
  induction 1; simpl; congruence.
Qed.

Lemma split_eq (A B : Type) (l l' : list (A * B)) :
  map fst l = map fst l' -> map snd l = map snd l' -> l = l'.
Proof.
  revert l'. induction l as [|[a b] l IH]; intros [|[a' b'] l']; simpl;
    intros H1 H2; try discriminate; [reflexivity|].
  injection H1 as -> H1. injection H2 as -> H2. f_equal. now apply IH.
Qed.

Lemma normalizes_functional (v w : value) :
  normalizes v w -> w = _recursive_cast v.
Proof.
  revert w.
  induction v as [| | | | | | | l IH | l IH | d IH | c l IH | c d IH]
    using value_deep_ind;
    intros w H; inversion H; subst; simpl in *;
    try reflexivity; try discriminate.
  - f_equal. apply Forall2_map_eq.
    match goal with X : Forall2 normalizes _ _ |- _ => revert X end.
    clear H. revert items'.
    induction IH as [|x l Hx _ IHl]; intros items' H2; inversion H2; subst;
      constructor; auto.
  - f_equal.
    match goal with X : Forall2 normalizes _ _ |- _ => rename X into H2 end.
    match goal with X : map fst _ = map fst _ |- _ => rename X into H1 end.
    apply split_eq.
    + now rewrite _recursive_cast_keys.
    + rewrite _recursive_cast_values. apply Forall2_map_eq.
      clear H H1. revert H2. generalize (map snd items'). clear items'.
      induction IH as [|kv d [_ Hv] _ IHd]; intros l' H2; simpl in H2;
        inversion H2; subst; constructor; auto.
Qed.

Lemma _recursive_cast_idempotent (x : value) :
  _recursive_cast (_recursive_cast x) = _recursive_cast x.
Proof.
  induction x as [| | | | | | | l IH | l IH | d IH | c l IH | c d IH]
    using value_deep_ind;
    simpl; try reflexivity.
  - f_equal. rewrite map_map. now apply map_ext_Forall.
  - f_equal. rewrite map_map. simpl. apply map_ext_Forall.
    eapply Forall_impl; [|exact IH]. simpl. intros kv [_ Hv]. now rewrite Hv.
Qed.

Lemma _recursive_cast_rich_free (x : value) :
  rich_free x = true -> _recursive_cast x = x.
Proof.
  induction x as [| | | | | | | l IH | l IH | d IH | c l IH | c d IH]
    using value_deep_ind;
    simpl; intros H; try reflexivity; try discriminate.
  - f_equal. rewrite <- (map_id l) at 2. apply map_ext_Forall.
    rewrite forallb_forall in H. rewrite Forall_forall in *.
    intros y Hy. apply IH; auto.
  - f_equal. rewrite <- (map_id d) at 2. apply map_ext_Forall.
    rewrite forallb_forall in H. rewrite Forall_forall in *.
    intros [k y] Hy. simpl. f_equal.
    specialize (H _ Hy). simpl in H. apply andb_true_iff in H as [_ H].
    now apply (IH _ Hy).
Qed.

(** ** The normaliser on a store *)

Module StoreFacts.
Import Store.

Lemma nth_error_extend (h fresh : heap) (a : addr) (o : obj) :
  nth_error h a = Some o -> nth_error (h ++ fresh) a = Some o.
Proof.
  intros H. rewrite nth_error_app1; [assumption|].
  apply nth_error_Some. congruence.
Qed.

Lemma nth_error_alloc (h : heap) (o : obj) :
  nth_error (fst (alloc h o)) (snd (alloc h o)) = Some o.
Proof.
  simpl. rewrite nth_error_app2, Nat.sub_diag; [reflexivity|lia].
Qed.

Lemma denotes_extend (fresh : heap) (v : value) :
  forall h a, denotes h a v -> denotes (h ++ fresh) a v.
Proof.
  induction v as [| | | | | | | l IH | l IH | d IH | c l IH | c d IH]
    using value_deep_ind;
    intros h a H; inversion H; subst;
    try (constructor; now apply nth_error_extend).
  - eapply denotes_Tuple; [now apply nth_error_extend; eassumption|].
    match goal with X : Forall2 _ _ _ |- _ => revert X end.
    generalize items. clear H.
    induction IH; intros it H2; inversion H2; subst; constructor; auto.
  - eapply denotes_List; [now apply nth_error_extend; eassumption|].
    match goal with X : Forall2 _ _ _ |- _ => revert X end.
    generalize items. clear H.
    induction IH; intros it H2; inversion H2; subst; constructor; auto.
  - eapply denotes_Dict; [now apply nth_error_extend; eassumption|].
    match goal with X : Forall2 _ _ _ |- _ => revert X end.
    generalize items. clear H.
    induction IH as [|kv d [Hk Hv] _ IHd]; intros it H2; inversion H2; subst;
      constructor; auto.
    match goal with X : _ /\ _ |- _ => destruct X end. split; auto.
  - eapply denotes_Iterable; [now apply nth_error_extend; eassumption|].
    match goal with X : Forall2 _ _ _ |- _ => revert X end.
    generalize items. clear H.
    induction IH; intros it H2; inversion H2; subst; constructor; auto.
  - eapply denotes_Mapping; [now apply nth_error_extend; eassumption|].
    match goal with X : Forall2 _ _ _ |- _ => revert X end.
    generalize items. clear H.
    induction IH as [|kv d [Hk Hv] _ IHd]; intros it H2; inversion H2; subst;
      constructor; auto.
    match goal with X : _ /\ _ |- _ => destruct X end. split; auto.
Qed.

Lemma Forall2_denotes_extend (fresh h : heap) items vs :
  Forall2 (denotes h) items vs -> Forall2 (denotes (h ++ fresh)) items vs.
Proof.
  induction 1; constructor; auto using denotes_extend.
Qed.

Lemma map_at_ok (fuel : nat) (vs : list value) :
  Forall (fun v => forall h a, denotes h a v -> cast_ok fuel h a v) vs ->
  forall h items,
    Forall2 (denotes h) items vs ->
    exists h' items',
      map_at (_recursive_cast_at fuel) h items = Some (h', items') /\
      (exists fresh, h' = h ++ fresh) /\
      Forall2 (denotes h') items' (map _recursive_cast vs).
Proof.
  induction 1 as [|v vs Hv _ IH]; intros h items H2; inversion H2; subst.
  - exists h, []. simpl. repeat split; [|constructor].
    exists []. now rewrite app_nil_r.
  - destruct (Hv h x) as (h1 & a' & E1 & [f1 ->] & D1); [assumption|].
    destruct (IH (h ++ f1) l) as (h2 & r' & E2 & [f2 ->] & D2).
    { now apply Forall2_denotes_extend. }
    exists ((h ++ f1) ++ f2), (a' :: r'). simpl. rewrite E1, E2.
    repeat split.
    + exists (f1 ++ f2). now rewrite app_assoc.
    + constructor; [now apply denotes_extend | assumption].
Qed.

Lemma depth_items (fuel : nat) (vs : list value) :
  list_max (map depth vs) < fuel -> Forall (fun v => depth v < fuel) vs.
Proof.
  intros H. apply Forall_forall. intros v Hv.
  assert (Hle : list_max (map depth vs) <= list_max (map depth vs)) by lia.
  apply list_max_le in Hle. rewrite Forall_forall in Hle.
  specialize (Hle (depth v) (in_map depth vs v Hv)). lia.
Qed.

Lemma combine_fst_snd (A B C : Type) (f : B -> C) (l : list (A * B)) :
  map (fun kv => (fst kv, f (snd kv))) l
  = combine (map fst l) (map f (map snd l)).
Proof.
  induction l as [|[a b] l IH]; simpl; [reflexivity|]. now rewrite IH.
Qed.

Lemma Forall2_combine (A B C D : Type) (R : A -> C -> Prop)
  (S : B -> D -> Prop) ks ks' vs vs' :
  Forall2 R ks ks' -> Forall2 S vs vs' ->
  Forall2 (fun p q => R (fst p) (fst q) /\ S (snd p) (snd q))
    (combine ks vs) (combine ks' vs').
Proof.
  intros H. revert vs vs'.
  induction H; intros vs vs' H2; simpl; [constructor|].
  inversion H2; subst; constructor; auto.
Qed.

Lemma Forall2_split (h : heap) items (kvs : dict) :
  Forall2 (fun p q => denotes h (fst p) (fst q) /\
                      denotes h (snd p) (snd q)) items kvs ->
  Forall2 (denotes h) (map fst items) (map fst kvs) /\
  Forall2 (denotes h) (map snd items) (map snd kvs).
Proof.
  induction 1 as [|p q items kvs [Hk Hv] _ [IH1 IH2]]; simpl;
    split; constructor; auto.
Qed.

(** The store reading of [_recursive_cast] terminates on every finite
    acyclic structure once the bound exceeds its depth, leaves every
    object of the store in place, and returns an object that denotes
    the value [_recursive_cast] computes: a fresh one for a dict, a
    list and a pendulum object, the argument itself otherwise. *)
Lemma _recursive_cast_at_ok (v : value) :
  forall fuel h a,
    denotes h a v -> depth v < fuel ->
    exists h' a',
      _recursive_cast_at fuel h a = Some (h', a') /\
      (exists fresh, h' = h ++ fresh) /\
      denotes h' a' (_recursive_cast v) /\
      (if rebuilt v then List.length h <= a' else a' = a).
Proof.
  induction v as [| | | | | | | l IH | l IH | d IH | c l IH | c d IH]
    using value_deep_ind;
    intros [|fuel] h a H Hd; try (simpl in Hd; lia);
    inversion H; subst; simpl;
    match goal with X : nth_error _ _ = Some _ |- _ => rewrite X end;
    try (exists h, a; repeat split;
         [exists []; now rewrite app_nil_r | assumption]).
  - (* DateTime *)
    eexists _, _. repeat split; [now exists [OStr (DateTime_str d)]| |lia].
    constructor. apply (nth_error_alloc h (OStr (DateTime_str d))).
  - (* Timezone *)
    eexists _, _. repeat split; [now exists [OStr (Timezone_str t)]| |lia].
    constructor. apply (nth_error_alloc h (OStr (Timezone_str t))).
  - (* list *)
    simpl in Hd. apply Nat.succ_lt_mono in Hd. apply depth_items in Hd.
    destruct (@map_at_ok fuel l) with (h := h) (items := items)
      as (h' & vs' & E & [fresh ->] & D); [|assumption|].
    { rewrite Forall_forall in *. intros v Hv h0 a0 D0.
      destruct (IH v Hv fuel h0 a0 D0 (Hd v Hv)) as (h1 & a1 & ? & ? & ? & _).
      now exists h1, a1. }
    rewrite E. eexists _, _. repeat split.
    + exists (fresh ++ [OList vs']). now rewrite app_assoc.
    + eapply denotes_List; [apply (nth_error_alloc (h ++ fresh))|].
      now apply Forall2_denotes_extend.
    + rewrite length_app. lia.
  - (* dict *)
    simpl in Hd. apply Nat.succ_lt_mono in Hd.
    rewrite <- map_map in Hd. apply depth_items in Hd.
    match goal with X : Forall2 _ items d |- _ =>
      destruct (Forall2_split _ _ _ X) as [Dk Dv] end.
    destruct (@map_at_ok fuel (map snd d)) with (h := h)
      (items := map snd items) as (h' & vs' & E & [fresh ->] & D);
      [|assumption|].
    { rewrite Forall_forall in *. intros v Hv h0 a0 D0.
      apply in_map_iff in Hv as ([k v'] & <- & Hin). simpl in *.
      destruct (IH _ Hin) as [_ IHv].
      destruct (IHv fuel h0 a0 D0 (Hd _ (in_map snd _ _ Hin)))
        as (h1 & a1 & ? & ? & ? & _).
      now exists h1, a1. }
    rewrite E. eexists _, _. repeat split.
    + exists (fresh ++ [ODict (combine (map fst items) vs')]).
      now rewrite app_assoc.
    + eapply denotes_Dict; [apply (nth_error_alloc (h ++ fresh))|].
      rewrite combine_fst_snd. simpl. apply Forall2_combine.
      * apply Forall2_denotes_extend. now apply Forall2_denotes_extend.
      * now apply Forall2_denotes_extend.
    + rewrite length_app. lia.
Qed.

End StoreFacts.

(** ** Dictionaries *)

Lemma eq_str_refl (k : string) : eq_str (VStr k) k = true.
Proof. simpl. apply String.eqb_refl. Qed.

Lemma dict_get_set (d : dict) (k : string) (v : value) :
  dict_get (dict_set d k v) k = Some v.
Proof.
  induction d as [|[k' x] d IH]; simpl.
  - now rewrite String.eqb_refl.
  - destruct (eq_str k' k) eqn:E; simpl; rewrite E; [reflexivity|exact IH].
Qed.

Lemma dict_get_cast (d : dict) (k : string) :
  dict_get (_cast_load_info_metadata d) k
  = option_map _recursive_cast (dict_get d k).
Proof.
  induction d as [|[k' x] d IH]; simpl; [reflexivity|].
  destruct (eq_str k' k); [reflexivity|exact IH].
Qed.

Lemma eq_str_cast (v : value) (s : string) :
  is_rich v = false -> eq_str (_recursive_cast v) s = eq_str v s.
Proof.
  destruct v; simpl; intros H; try reflexivity; discriminate.
Qed.

(** ** Metadata extraction *)

Lemma jobs_of_table_ok (table : string) (jobs : list value) :
  forallb is_job jobs = true ->
  jobs_of_table (map _recursive_cast jobs) table
  = Ok (map _recursive_cast (filter (has_table table) jobs)).
Proof.
  induction jobs as [|job jobs IH]; simpl; intros H; [reflexivity|].
  apply andb_true_iff in H as [Hjob Hjobs].
  destruct job; simpl in Hjob; try discriminate.
  simpl. rewrite (IH Hjobs). simpl.
  unfold dict_get_default in *.
  fold (_cast_load_info_metadata items). rewrite dict_get_cast.
  destruct (dict_get items "table_name") as [t|]; simpl.
  - apply negb_true_iff in Hjob. rewrite (eq_str_cast t table Hjob).
    destruct (eq_str t table); reflexivity.
  - reflexivity.
Qed.

Lemma jobs_of_packages_ok (table : string) (packages : list value) :
  forallb is_load_package packages = true ->
  jobs_of_packages (map _recursive_cast packages) table
  = Ok (map _recursive_cast
          (filter (has_table table) (flat_map jobs_of packages))).
Proof.
  induction packages as [|p packages IH]; simpl; intros H; [reflexivity|].
  apply andb_true_iff in H as [Hp Hps].
  rewrite filter_app, map_app.
  destruct p; simpl in Hp; try discriminate.
  simpl. unfold dict_get_default.
  fold (_cast_load_info_metadata items). rewrite dict_get_cast.
  destruct (dict_get items "jobs") as [[]|]; simpl in *; try discriminate.
  - rewrite (jobs_of_table_ok table _ Hp). simpl. rewrite (IH Hps). reflexivity.
  - rewrite (IH Hps). reflexivity.
Qed.

(** On a well-formed report the extraction returns, and this is what it
    returns. *)
Lemma extract_resource_metadata_ok (resource : DltResource)
  (load_info : LoadInfo) :
  well_formed (asdict load_info) = true ->
  extract_resource_metadata resource load_info
  = Ok (dict_set
          (filter (fun kv => in_str_set (fst kv) dlt_base_metadata_types)
             (_cast_load_info_metadata (asdict load_info)))
          "jobs"
          (VList (map _recursive_cast
                    (filter (has_table (table_name resource))
                       (all_jobs (asdict load_info)))))).
Proof.
  unfold well_formed, extract_resource_metadata, all_jobs, load_packages_of,
    dict_get_default.
  rewrite dict_get_cast.
  destruct (dict_get (asdict load_info) "load_packages") as [[]|];
    simpl; intros H; try discriminate.
  - rewrite (jobs_of_packages_ok (table_name resource) _ H). reflexivity.
  - reflexivity.
Qed.

(** The extraction raises nothing but what a malformed report provokes. *)
Lemma jobs_of_table_raises table jobs e :
  jobs_of_table jobs table = Raise e -> e = AttributeError \/ e = TypeError.
Proof.
  induction jobs as [|job jobs IH]; simpl; [discriminate|].
  destruct job; simpl; try (intros [= <-]; now left);
    (destruct (jobs_of_table jobs table); simpl; [discriminate|];
     intros [= <-]; now apply IH).
Qed.

Lemma jobs_of_packages_raises table packages e :
  jobs_of_packages packages table = Raise e ->
  e = AttributeError \/ e = TypeError.
Proof.
  induction packages as [|p packages IH]; simpl; [discriminate|].
  destruct p; simpl; try (intros [= <-]; now left);
    (destruct (iterate (dict_get_default items "jobs" (VList [])))
       as [js|e'] eqn:Ei; simpl;
     [ destruct (jobs_of_table js table) eqn:Ej; simpl;
       [ destruct (jobs_of_packages packages table); simpl; [discriminate|];
         intros [= <-]; now apply IH
       | intros [= <-]; eapply jobs_of_table_raises; eassumption ]
     | intros [= <-];
       destruct (dict_get_default items "jobs" (VList [])); simpl in Ei;
       try discriminate; injection Ei as <-; now right ]).
Qed.

Lemma extract_resource_metadata_raises resource load_info e :
  extract_resource_metadata resource load_info = Raise e ->
  e = AttributeError \/ e = TypeError.
Proof.
  unfold extract_resource_metadata.
  destruct (iterate _) as [ps|e'] eqn:Ei; simpl.
  - destruct (jobs_of_packages ps (table_name resource)) eqn:Ej; simpl;
      [discriminate|].
    intros [= <-]. eapply jobs_of_packages_raises; eassumption.
  - intros [= <-].
    destruct (dict_get_default _ "load_packages" (VList [])); simpl in Ei;
      try discriminate; injection Ei as <-; now right.
Qed.

(** ** Names and keys *)

Lemma append_inj_same_length (s1 s2 x y : string) :
  String.length s1 = String.length s2 ->
  (s1 ++ x)%string = (s2 ++ y)%string -> s1 = s2 /\ x = y.
Proof.
  revert s2. induction s1 as [|c s1 IH]; intros [|c' s2]; simpl;
    intros Hl He; try discriminate.
  - now split.
  - injection He as -> He. injection Hl as Hl.
    destruct (IH s2 Hl He) as [-> ->]. now split.
Qed.

Lemma append_inj_no_underscore (s1 s2 x y : string) :
  no_underscore s1 = true -> no_underscore s2 = true ->
  (s1 ++ String "_" x)%string = (s2 ++ String "_" y)%string ->
  s1 = s2 /\ x = y.
Proof.
  revert s2. induction s1 as [|c s1 IH]; intros [|c' s2]; simpl;
    intros H1 H2 He.
  - injection He as ->. now split.
  - injection He as <- _. discriminate.
  - injection He as -> _. discriminate.
  - injection He as -> He.
    apply andb_true_iff in H1 as [_ H1]. apply andb_true_iff in H2 as [_ H2].
    destruct (IH s2 H1 H2 He) as [-> ->]. now split.
Qed.

Lemma default_get_asset_key_eq (r1 r2 : DltResource) :
  default_get_asset_key r1 = default_get_asset_key r2 ->
  (source_name r1 ++ String "_" (name r1))%string
  = (source_name r2 ++ String "_" (name r2))%string.
Proof.
  unfold default_get_asset_key, AssetKey_of_str. simpl.
  intros H. injection H as H. exact H.
Qed.

Lemma path_eqb_refl (p : list string) : path_eqb p p = true.
Proof.
  induction p as [|s p IH]; simpl; [reflexivity|].
  now rewrite String.eqb_refl, IH.
Qed.

Lemma selected_In (context : Context) (k : AssetKey) :
  In k (selected_asset_keys context) -> selected context k = true.
Proof.
  intros H. unfold selected. apply existsb_exists. exists k. split; auto.
  apply path_eqb_refl.
Qed.

(** ** The pairing *)

Lemma filter_all (A : Type) (f : A -> bool) (l : list A) :
  (forall x, In x l -> f x = true) -> filter f l = l.
Proof.
  induction l as [|x l IH]; simpl; intros H; [reflexivity|].
  rewrite (H x (or_introl eq_refl)). f_equal. apply IH. auto.
Qed.

(** The test on line 175 lets every pair through: a key of the pairing was
    drawn from the selected keys. *)
Lemma execution_pairing_zip (context : Context) (dlt_source : DltSource) :
  fst (execution_pairing context dlt_source)
  = combine (selected_asset_keys context) (resources dlt_source).
Proof.
  unfold execution_pairing. destruct (is_subset context); simpl;
    [|reflexivity].
  apply filter_all. intros [k r] Hin. simpl.
  apply selected_In. eapply in_combine_l. eassumption.
Qed.

Lemma combine_snd (A B : Type) (l : list A) (l' : list B) :
  List.length l = List.length l' -> map snd (combine l l') = l'.
Proof.
  revert l'. induction l as [|a l IH]; intros [|b l']; simpl; intros H;
    try discriminate; [reflexivity|].
  f_equal. apply IH. now injection H.
Qed.

Lemma keys_dlt_assets dlt_source dlt_pipeline nm grp translator :
  keys (dlt_assets dlt_source dlt_pipeline nm grp translator)
  = map (get_asset_key translator) (resources dlt_source).
Proof.
  unfold keys, dlt_assets. simpl. now rewrite map_map.
Qed.

(** ** The loop *)

Lemma materialization_inv dagster c k md m :
  materialization dagster c k md = Ok m ->
  materialization_key m = k /\ materialization_metadata m = md /\
  is_materialize_result m
  = match c with
    | AssetExecutionContext => true
    | OpExecutionContext => false
    end.
Proof.
  unfold materialization. destruct c.
  - intros [= <-]. now repeat split.
  - destruct (accepts_metadata dagster md); [|discriminate].
    intros [= <-]. now repeat split.
Qed.

Lemma materialization_raises dagster c k md e :
  materialization dagster c k md = Raise e ->
  e = DagsterInvalidMetadata /\ c = OpExecutionContext /\
  accepts_metadata dagster md = false.
Proof.
  unfold materialization. destruct c; [discriminate|].
  destruct (accepts_metadata dagster md); [discriminate|].
  intros [= <-]. now repeat split.
Qed.


Lemma yielded_cons_yield m t r :
  yielded (mkRun (Yield m :: t) r) = m :: yielded (mkRun t r).
Proof. reflexivity. Qed.

Lemma emit_eta dagster c mapping load_info :
  mkRun (trace (emit dagster c mapping load_info))
    (raised (emit dagster c mapping load_info))
  = emit dagster c mapping load_info.
Proof. now destruct (emit dagster c mapping load_info). Qed.

Lemma emit_trace_yields dagster c mapping load_info :
  trace (emit dagster c mapping load_info)
  = map Yield (yielded (emit dagster c mapping load_info)).
Proof.
  induction mapping as [|[k r] mapping IH]; simpl; [reflexivity|].
  destruct (extract_resource_metadata r load_info) as [md|]; simpl;
    [|reflexivity].
  destruct (materialization dagster c k md) as [m|]; simpl; [|reflexivity].
  unfold yielded in *. simpl. now rewrite <- IH.
Qed.


Lemma executed_emit dagster c mapping load_info :
  flat_map (fun e => match e with PipelineRun s _ => [s] | _ => [] end)
    (trace (emit dagster c mapping load_info)) = [].
Proof.
  rewrite emit_trace_yields.
  induction (yielded (emit dagster c mapping load_info)); simpl; auto.
Qed.

Lemma emit_raises dagster c mapping load_info e :
  raised (emit dagster c mapping load_info) = Some e ->
  e = AttributeError \/ e = TypeError \/ e = DagsterInvalidMetadata.
Proof.
  induction mapping as [|[k r] mapping IH]; simpl; [discriminate|].
  destruct (extract_resource_metadata r load_info) as [md|] eqn:E; simpl.
  - destruct (materialization dagster c k md) as [m|] eqn:M; simpl.
    + exact IH.
    + intros [= <-]. apply materialization_raises in M as [-> _]. auto.
  - intros [= <-].
    destruct (extract_resource_metadata_raises _ _ _ E); auto.
Qed.

Lemma emit_not_configuration_error dagster c mapping load_info :
  raised (emit dagster c mapping load_info) <> Some ConfigurationError.
Proof.
  intros H. apply emit_raises in H as [H|[H|H]]; discriminate.
Qed.

Lemma truthy_false (entry : option MetaValue) :
  truthy entry = false <-> missing entry.
Proof.
  unfold missing. destruct entry as [[s|p|t|]|]; simpl.
  - split; [discriminate|]. intros [H|[H|H]]; discriminate.
  - split; [discriminate|]. intros [H|[H|H]]; discriminate.
  - destruct (String.eqb t "") eqn:E; simpl.
    + apply String.eqb_eq in E. subst. split; auto.
    + split; [discriminate|]. intros [H|[H|H]]; try discriminate.
      injection H as ->. discriminate.
  - split; auto.
  - split; auto.
Qed.

Lemma yielded_after_execution s kw t r :
  yielded (mkRun (PipelineRun s kw :: t) r) = yielded (mkRun t r).
Proof. reflexivity. Qed.

Lemma combine_snd_firstn (A B : Type) (l : list A) (l' : list B) :
  map snd (combine l l') = firstn (List.length l) l'.
Proof.
  revert l'. induction l as [|a l IH]; intros [|b l']; simpl;
    try reflexivity.
  now rewrite IH.
Qed.

Lemma combine_fst_firstn (A B : Type) (l : list A) (l' : list B) :
  map fst (combine l l') = firstn (List.length l') l.
Proof.
  revert l'. induction l as [|a l IH]; intros [|b l']; simpl;
    try reflexivity.
  now rewrite IH.
Qed.

(** ** The scenarios, evaluated *)

(** Scenario A: with the selected keys iterated in resource order, a full
    run pairs every resource with its own key. *)
Example scenario_full_run :
  execution_pairing Scenario.full Scenario.source
  = ([ (default_get_asset_key Scenario.alpha, Scenario.alpha);
       (default_get_asset_key Scenario.beta, Scenario.beta) ],
     Scenario.source).
Proof. reflexivity. Qed.

(** Scenario D: a timestamp becomes a string, and the string stays. *)
Example scenario_timestamp (d : DateTime) :
  _recursive_cast (VDateTime d) = VStr (DateTime_str d) /\
  _recursive_cast (_recursive_cast (VDateTime d)) = VStr (DateTime_str d).
Proof. split; reflexivity. Qed.

(** The extraction keeps the allow-listed fields of the report and adds
    the jobs of the resource's table. *)
Example scenario_metadata :
  extract_resource_metadata Scenario.beta Scenario.load_info
  = Ok [ (VStr "first_run", VBool true);
         (VStr "started_at", VStr "2024-01-01T00:00:00+00:00");
         (VStr "jobs", VList [Scenario.customers_job]) ].
Proof. reflexivity. Qed.

(** A text under the source key passes the test of line 158 and fails on
    line 167, where its [resources] are asked for. *)
Example scenario_mistyped (dagster : Dagster) :
  run dagster Cases.mistyped [] = mkRun [] (Some AttributeError).
Proof. reflexivity. Qed.

(** An op-level run in which Dagster stores the first record's metadata
    and not the second's: the first record is yielded, then building the
    second raises. *)
Example scenario_invalid_metadata :
  map materialization_key (yielded (run Cases.picky Cases.op_full []))
  = [default_get_asset_key Scenario.alpha] /\
  raised (run Cases.picky Cases.op_full [])
  = Some DagsterInvalidMetadata.
Proof. split; reflexivity. Qed.

(** * The specification, property by property *)

(** C1 (the code departs from it).  The claim: in a subset run requesting
    [K] the pairing holds exactly the resources whose derived key is in [K],
    each with its own key, in collection order.  The code pairs the
    selected keys with the resources by position, and its membership test
    lets every pair through.  For the source [alpha; beta] and the request
    for [beta]'s key the claim asks for [(key beta, beta)]; the code builds
    [(key beta, alpha)], selects [alpha] alone in the source and reports
    [alpha]'s jobs under [beta]'s key. *)
Theorem subset_pairing_misaligned (dagster : Dagster) :
  derived_pairing default_translator Scenario.only_beta Scenario.source
  = [(default_get_asset_key Scenario.beta, Scenario.beta)] /\
  execution_pairing Scenario.only_beta Scenario.source
  = ([(default_get_asset_key Scenario.beta, Scenario.alpha)],
     with_resources Scenario.source ["alpha"]) /\
  exists metadata,
    run dagster Scenario.only_beta []
    = mkRun [ PipelineRun (with_resources Scenario.source ["alpha"]) [];
              Yield (MaterializeResult
                       (default_get_asset_key Scenario.beta) metadata) ]
        None /\
    dict_get metadata "jobs"
    = Some (VList [_recursive_cast Scenario.orders_job]).
Proof.
  split; [reflexivity|]. split; [reflexivity|].
  eexists. split; reflexivity.
Qed.

(** C2, as stated, fails: the two names are joined by an underscore that
    may also occur inside them, so source [a_b] with resource [c] and source
    [a] with resource [b_c] derive the same key. *)
Lemma get_asset_key_collision :
  let r1 := mkDltResource "c" "a_b" "t1" in
  let r2 := mkDltResource "b_c" "a" "t2" in
  (source_name r1, name r1) <> (source_name r2, name r2) /\
  get_asset_key default_translator r1 = get_asset_key default_translator r2.
Proof.
  simpl. split; [discriminate|reflexivity].
Qed.

(** C2 (amended).  For resources [r1] and [r2] with distinct (source name,
    resource name) pairs whose source names have the same length (as have
    all resources of one source) or contain no underscore,
    [get_asset_key r1] differs from [get_asset_key r2]. *)
Theorem get_asset_key_injective (r1 r2 : DltResource) :
  String.length (source_name r1) = String.length (source_name r2) \/
  (no_underscore (source_name r1) = true /\
   no_underscore (source_name r2) = true) ->
  (source_name r1, name r1) <> (source_name r2, name r2) ->
  get_asset_key default_translator r1 <> get_asset_key default_translator r2.
Proof.
  intros Hside Hne Heq. apply Hne. simpl in Heq.
  apply default_get_asset_key_eq in Heq.
  destruct Hside as [Hlen | [H1 H2]].
  - destruct (append_inj_same_length _ _ _ _ Hlen Heq) as [-> E].
    now injection E as ->.
  - destruct (append_inj_no_underscore _ _ _ _ H1 H2 Heq) as [-> ->].
    reflexivity.
Qed.

Lemma get_asset_key_injective_witness :
  get_asset_key default_translator Scenario.alpha
  <> get_asset_key default_translator Scenario.beta.
Proof.
  apply (get_asset_key_injective Scenario.alpha Scenario.beta).
  - left. reflexivity.
  - simpl. discriminate.
Defined.

(** C3 (the code departs from it).  The claim: a subset run whose
    requested keys meet no derivable key has an empty pairing, yields
    nothing and raises nothing.  Take a unit that holds, beside the nodes of
    the source [alpha; beta], a node [gamma] that no resource derives, and
    a subset run that selects [gamma] alone.  The claim asks for an empty
    pairing and no record; the code pairs [gamma] with [alpha], runs the
    pipeline with [alpha] selected and yields one record under [gamma]. *)
Theorem unknown_key_still_materializes (dagster : Dagster) :
  incl (selected_asset_keys Cases.only_gamma)
    (keys (assets_def Cases.only_gamma)) /\
  forallb (fun r => negb (selected Cases.only_gamma
                            (get_asset_key default_translator r)))
    (resources Scenario.source) = true /\
  derived_pairing default_translator Cases.only_gamma Scenario.source
  = [] /\
  fst (execution_pairing Cases.only_gamma Scenario.source)
  = [(Scenario.gamma_key, Scenario.alpha)] /\
  executed (run dagster Cases.only_gamma [])
  = [with_resources Scenario.source ["alpha"]] /\
  map materialization_key (yielded (run dagster Cases.only_gamma []))
  = [Scenario.gamma_key] /\
  raised (run dagster Cases.only_gamma []) = None.
Proof.
  split.
  { intros k [<-|[]]. simpl. auto. }
  repeat split; reflexivity.
Qed.

(** C4.  In a full run of a unit built by [dlt_assets] from a source, the
    pairing is as long as the source's resource collection and its
    resources are those of the collection, each once and in order; it is
    the pairing [run] builds, for [run] resolves that source and executes
    the pipeline on the whole of it. *)
Theorem full_run_pairing (translator : DltDagsterTranslator)
  (dlt_source : DltSource) (dlt_pipeline : Pipeline)
  (nm grp : option string) (context : Context) :
  assets_def context
  = dlt_assets dlt_source dlt_pipeline nm grp translator ->
  full_run context ->
  List.length (fst (execution_pairing context dlt_source))
  = List.length (resources dlt_source) /\
  map snd (fst (execution_pairing context dlt_source))
  = resources dlt_source /\
  (forall dagster kwargs,
     resources dlt_source <> [] ->
     executed (run dagster context kwargs) = [dlt_source]).
Proof.
  intros Hdef [Hfull Hperm].
  assert (Hlen : List.length (selected_asset_keys context)
                 = List.length (resources dlt_source)).
  { rewrite (Permutation_length Hperm), Hdef, keys_dlt_assets.
    apply length_map. }
  rewrite execution_pairing_zip. split; [|split].
  - rewrite length_combine, Hlen. apply Nat.min_id.
  - now apply combine_snd.
  - intros dagster kwargs Hne. unfold run, execution_pairing.
    rewrite Hdef, Hfull. unfold dlt_assets, metadata_by_key. simpl.
    destruct (resources dlt_source) as [|r rs]; [contradiction|]. simpl.
    destruct (pipeline_run dlt_pipeline dlt_source kwargs); unfold executed;
      simpl; [|reflexivity].
    f_equal. apply executed_emit.
Qed.

Lemma full_run_pairing_witness :
  List.length (fst (execution_pairing Scenario.full Scenario.source)) = 2 /\
  map snd (fst (execution_pairing Scenario.full Scenario.source))
  = [Scenario.alpha; Scenario.beta] /\
  (forall dagster kwargs,
     resources Scenario.source <> [] ->
     executed (run dagster Scenario.full kwargs) = [Scenario.source]).
Proof.
  apply (@full_run_pairing default_translator Scenario.source
           Scenario.pipeline None None Scenario.full).
  - reflexivity.
  - split; [reflexivity|]. apply Permutation_refl.
Defined.



(** C6.  For a resource with target table [T] and a (well-formed) run
    report, the [jobs] entry of the extracted metadata is the list of the
    job records of all load packages whose table-name field equals [T],
    normalised, in their sequence order. *)
Theorem extract_resource_metadata_jobs (resource : DltResource)
  (load_info : LoadInfo) :
  well_formed (asdict load_info) = true ->
  exists metadata,
    extract_resource_metadata resource load_info = Ok metadata /\
    dict_get metadata "jobs"
    = Some (VList (map _recursive_cast
                     (filter (has_table (table_name resource))
                        (all_jobs (asdict load_info))))).
Proof.
  intros Hwf. eexists. split.
  - apply (extract_resource_metadata_ok resource load_info Hwf).
  - apply dict_get_set.
Qed.

Lemma extract_resource_metadata_jobs_witness :
  exists metadata,
    extract_resource_metadata Scenario.alpha Scenario.load_info
    = Ok metadata /\
    dict_get metadata "jobs"
    = Some (VList [_recursive_cast Scenario.orders_job]).
Proof.
  apply (@extract_resource_metadata_jobs Scenario.alpha Scenario.load_info).
  reflexivity.
Defined.

(** C7.  [_recursive_cast] meets the contract of section 4.3 and meets it
    alone: a dict goes to a new dict with the same keys and the values
    normalised, a list to a new list normalised elementwise, a pendulum
    [DateTime] or [Timezone] to its string form, anything else to itself;
    [_cast_load_info_metadata] is the same on a mapping.  Read over a store
    of objects, the call on a finite acyclic structure returns, appends to
    the store without changing an object that was there, and answers with
    an object for the normal form: a fresh one for a dict, a list and a
    pendulum object, the argument itself otherwise. *)
Theorem normalize_contract :
  (forall v w, normalizes v w <-> w = _recursive_cast v) /\
  (forall mapping,
     VDict (_cast_load_info_metadata mapping)
     = _recursive_cast (VDict mapping)) /\
  (forall h a v fuel,
     Store.denotes h a v -> Store.depth v < fuel ->
     exists h' a',
       Store._recursive_cast_at fuel h a = Some (h', a') /\
       (forall b o, nth_error h b = Some o -> nth_error h' b = Some o) /\
       (forall b u, Store.denotes h b u -> Store.denotes h' b u) /\
       Store.denotes h' a' (_recursive_cast v) /\
       (if Store.rebuilt v then List.length h <= a' else a' = a)).
Proof.
  split; [|split].
  - intros v w. split.
    + apply normalizes_functional.
    + intros ->. apply _recursive_cast_normalizes.
  - reflexivity.
  - intros h a v fuel D Hd.
    destruct (StoreFacts._recursive_cast_at_ok v fuel h a D Hd)
      as (h' & a' & E & [fresh ->] & D' & Hn).
    exists (h ++ fresh), a'. repeat split; try assumption.
    + intros b o. apply StoreFacts.nth_error_extend.
    + intros b u. apply StoreFacts.denotes_extend.
Qed.

Lemma normalize_contract_witness :
  exists h' a',
    Store._recursive_cast_at 3 Scenario.store 3 = Some (h', a') /\
    (forall b o, nth_error Scenario.store b = Some o ->
                 nth_error h' b = Some o) /\
    (forall b u, Store.denotes Scenario.store b u -> Store.denotes h' b u) /\
    Store.denotes h' a' (_recursive_cast Scenario.stored_value) /\
    4 <= a'.
Proof.
  destruct normalize_contract as (_ & _ & H).
  apply (H Scenario.store 3 Scenario.stored_value 3).
  - eapply Store.denotes_List; [reflexivity|].
    constructor; [now constructor|].
    constructor; [|constructor].
    eapply Store.denotes_Tuple; [reflexivity|].
    constructor; [now constructor|].
    constructor; [now constructor|constructor].
  - simpl. lia.
Defined.

(** C8.  Normalising twice is normalising once, for [_recursive_cast] and
    for [_cast_load_info_metadata]; and a value in which no rich value
    occurs is its own normal form. *)
Theorem normalize_idempotent :
  (forall x, _recursive_cast (_recursive_cast x) = _recursive_cast x) /\
  (forall mapping,
     _cast_load_info_metadata (_cast_load_info_metadata mapping)
     = _cast_load_info_metadata mapping) /\
  (forall x, rich_free x = true -> _recursive_cast x = x).
Proof.
  split; [|split].
  - apply _recursive_cast_idempotent.
  - intros mapping.
    pose proof (_recursive_cast_idempotent (VDict mapping)) as H.
    simpl in H. now injection H.
  - apply _recursive_cast_rich_free.
Qed.

Lemma normalize_idempotent_witness :
  _recursive_cast Scenario.customers_job = Scenario.customers_job.
Proof.
  destruct normalize_idempotent as (_ & _ & H).
  apply (H Scenario.customers_job). reflexivity.
Defined.

(** C10.  A value that is neither a dict, nor a list, nor a pendulum
    [DateTime] or [Timezone] is returned as it is: in the store reading the
    call returns the very object it was given and leaves the store as it
    was.  A tuple is such a value, so a pendulum object inside a tuple
    stays unconverted. *)
Theorem normalize_permissive :
  (forall v,
     is_dict v = false -> is_list v = false -> is_rich v = false ->
     _recursive_cast v = v) /\
  (forall h a v fuel,
     Store.denotes h a v ->
     is_dict v = false -> is_list v = false -> is_rich v = false ->
     Store._recursive_cast_at (S fuel) h a = Some (h, a)) /\
  (forall items, _recursive_cast (VTuple items) = VTuple items) /\
  (forall d items,
     rich_free (_recursive_cast (VTuple (VDateTime d :: items))) = false).
Proof.
  split; [|split; [|split]].
  - apply _recursive_cast_other.
  - intros h a v fuel D Hd Hl Hr.
    inversion D; subst; simpl in *; try discriminate;
      match goal with X : nth_error _ _ = Some _ |- _ => rewrite X end;
      reflexivity.
  - reflexivity.
  - reflexivity.
Qed.

Lemma normalize_permissive_witness :
  Store._recursive_cast_at 1 Scenario.store 2 = Some (Scenario.store, 2).
Proof.
  destruct normalize_permissive as (_ & H & _).
  apply (H Scenario.store 2
           (VTuple [ VDateTime (mkDateTime "2024-01-01T00:00:00+00:00");
                     VInt 7 ]) 0); try reflexivity.
  eapply Store.denotes_Tuple; [reflexivity|].
  constructor; [now constructor|].
  constructor; [now constructor|constructor].
Defined.

(** C9.  In a run of a unit with at least one node, the exception of line
    159 is raised exactly when the source reference or the pipeline
    reference is missing from the metadata the run consults (the key is
    absent or holds a value Python counts as false), and when it is raised
    the pipeline was not executed and nothing was yielded; when the
    metadata holds a source and a pipeline, the pipeline is executed. *)
Theorem run_configuration_error (dagster : Dagster) (context : Context)
  (kwargs : Kwargs) (asset_key : AssetKey) (first_asset_metadata : Metadata)
  (others : list (AssetKey * Metadata)) :
  metadata_by_key (assets_def context)
  = (asset_key, first_asset_metadata) :: others ->
  (raised (run dagster context kwargs) = Some ConfigurationError <->
   missing (metadata_get first_asset_metadata META_KEY_SOURCE) \/
   missing (metadata_get first_asset_metadata META_KEY_PIPELINE)) /\
  (raised (run dagster context kwargs) = Some ConfigurationError ->
   trace (run dagster context kwargs) = []) /\
  (forall dlt_source dlt_pipeline,
     metadata_get first_asset_metadata META_KEY_SOURCE
     = Some (MetaSource dlt_source) ->
     metadata_get first_asset_metadata META_KEY_PIPELINE
     = Some (MetaPipeline dlt_pipeline) ->
     executed (run dagster context kwargs)
     = [snd (execution_pairing context dlt_source)]).
Proof.
  intros Hm. unfold run. rewrite Hm.
  set (s := metadata_get first_asset_metadata META_KEY_SOURCE).
  set (p := metadata_get first_asset_metadata META_KEY_PIPELINE).
  cbv zeta.
  destruct (truthy s) eqn:Ts; [destruct (truthy p) eqn:Tp|]; cbn [negb orb].
  - (* both pass line 158 *)
    assert (Hnot : ~ (missing s \/ missing p)).
    { intros [H|H]; apply truthy_false in H; congruence. }
    assert (Hraise :
      raised
        match as_source s with
        | Some src =>
            let (mapping, narrowed) := execution_pairing context src in
            match as_pipeline p with
            | Some pl =>
                match pipeline_run pl narrowed kwargs with
                | Loaded load_info =>
                    mkRun
                      (PipelineRun narrowed kwargs
                       :: trace (emit dagster (context_class context)
                                   mapping load_info))
                      (raised (emit dagster (context_class context)
                                 mapping load_info))
                | Failed what =>
                    mkRun [PipelineRun narrowed kwargs]
                      (Some (PipelineExecutionFailure what))
                end
            | None => mkRun [] (Some AttributeError)
            end
        | None => mkRun [] (Some AttributeError)
        end <> Some ConfigurationError).
    { destruct (as_source s) as [src|]; [|discriminate].
      destruct (execution_pairing context src) as [mapping narrowed].
      destruct (as_pipeline p) as [pl|]; [|discriminate].
      destruct (pipeline_run pl narrowed kwargs); [|discriminate].
      apply emit_not_configuration_error. }
    split; [split; intros H; contradiction|].
    split; [intros H; contradiction|].
    intros src pl Hs Hp. rewrite Hs, Hp. cbn [as_source as_pipeline].
    destruct (execution_pairing context src) as [mapping narrowed].
    cbn [snd].
    destruct (pipeline_run pl narrowed kwargs); unfold executed;
      cbn [trace flat_map app]; [|reflexivity].
    f_equal. apply executed_emit.
  - cbn [raised trace].
    split; [split; [intros _; right; now apply truthy_false|reflexivity]|].
    split; [reflexivity|].
    intros src pl _ Hp. rewrite Hp in Tp. discriminate.
  - cbn [raised trace].
    split; [split; [intros _; left; now apply truthy_false|reflexivity]|].
    split; [reflexivity|].
    intros src pl Hs _. rewrite Hs in Ts. discriminate.
Qed.

Lemma run_configuration_error_witness :
  raised (run Cases.lenient Scenario.broken []) = Some ConfigurationError /\
  trace (run Cases.lenient Scenario.broken []) = [] /\
  executed (run Cases.lenient Scenario.full []) = [Scenario.source].
Proof.
  destruct (run_configuration_error Cases.lenient Scenario.broken []
              (default_get_asset_key Scenario.alpha)
              [ (META_KEY_SOURCE, MetaSource Scenario.source) ] []
              eq_refl) as ([_ H] & H' & _).
  assert (Hmiss : missing
                    (metadata_get
                       [ (META_KEY_SOURCE, MetaSource Scenario.source) ]
                       META_KEY_PIPELINE)).
  { left. reflexivity. }
  split; [apply H; now right|].
  split; [apply H'; apply H; now right|].
  apply (proj2 (proj2 (run_configuration_error Cases.lenient Scenario.full []
                  (default_get_asset_key Scenario.alpha)
                  [ (META_KEY_SOURCE, MetaSource Scenario.source);
                    (META_KEY_PIPELINE, MetaPipeline Scenario.pipeline) ]
                  [ (default_get_asset_key Scenario.beta,
                     [ (META_KEY_SOURCE, MetaSource Scenario.source);
                       (META_KEY_PIPELINE,
                        MetaPipeline Scenario.pipeline) ]) ]
                  eq_refl)) Scenario.source Scenario.pipeline);
    reflexivity.
Defined.

(** * Further properties of the code *)

(** ** The normaliser *)

(** X1.  After [_recursive_cast] no pendulum object is left below dict
    values and list items, at any depth; the same holds of every value of
    the mapping [_cast_load_info_metadata] returns. *)
Theorem _recursive_cast_pendulum_free :
  (forall v, pendulum_free (_recursive_cast v) = true) /\
  (forall mapping,
     forallb (fun kv => pendulum_free (snd kv))
       (_cast_load_info_metadata mapping) = true).
Proof.
  assert (H : forall v, pendulum_free (_recursive_cast v) = true).
  { induction v as [| | | | | | | l IH | l IH | d IH | c l IH | c d IH]
    using value_deep_ind;
      simpl; try reflexivity.
    - apply forallb_forall. intros y Hy.
      apply in_map_iff in Hy as (x & <- & Hx).
      rewrite Forall_forall in IH. now apply IH.
    - apply forallb_forall. intros y Hy.
      apply in_map_iff in Hy as (x & <- & Hx). simpl.
      rewrite Forall_forall in IH. now apply (IH x Hx). }
  split; [exact H|].
  intros mapping. apply (H (VDict mapping)).
Qed.

(** X2.  Looking a key up in the normalised mapping gives the normal form
    of what the key held in the mapping, and nothing when the key was
    absent; the item at an index of a normalised list is the normal form of
    the item at that index. *)
Theorem _cast_load_info_metadata_lookup :
  (forall mapping k,
     dict_get (_cast_load_info_metadata mapping) k
     = option_map _recursive_cast (dict_get mapping k)) /\
  (forall items items' i,
     _recursive_cast (VList items) = VList items' ->
     nth_error items' i = option_map _recursive_cast (nth_error items i)).
Proof.
  split.
  - apply dict_get_cast.
  - intros items items' i H. simpl in H. injection H as <-.
    apply nth_error_map.
Qed.

Lemma _cast_load_info_metadata_lookup_witness :
  nth_error [VStr "2024-01-01T00:00:00+00:00"] 0
  = option_map _recursive_cast
      (nth_error [VDateTime (mkDateTime "2024-01-01T00:00:00+00:00")] 0).
Proof.
  destruct _cast_load_info_metadata_lookup as [_ H].
  apply (H [VDateTime (mkDateTime "2024-01-01T00:00:00+00:00")]).
  reflexivity.
Defined.

(** ** Metadata extraction *)

Lemma in_str_set_inv (k : value) (s : list string) :
  in_str_set k s = true -> exists t, k = VStr t /\ In t s.
Proof.
  unfold in_str_set. intros H. apply existsb_exists in H as (t & Ht & E).
  destruct k; simpl in E; try discriminate.
  apply String.eqb_eq in E. subst. now exists t.
Qed.

Lemma dict_set_keys (d : dict) (k : string) (v : value) (P : value -> Prop) :
  Forall (fun kv => P (fst kv)) d -> P (VStr k) ->
  Forall (fun kv => P (fst kv)) (dict_set d k v).
Proof.
  intros Hd Hk. induction Hd as [|[k' x] d Hx Hd IH]; simpl.
  - constructor; [exact Hk|constructor].
  - destruct (eq_str k' k); constructor; auto.
Qed.

Lemma dict_get_set_other (d : dict) (k k' : string) (v : value) :
  k <> k' -> dict_get (dict_set d k' v) k = dict_get d k.
Proof.
  intros Hne. induction d as [|[key x] d IH]; simpl.
  - destruct (String.eqb k' k) eqn:E; [|reflexivity].
    apply String.eqb_eq in E. congruence.
  - destruct (eq_str key k') eqn:E'; simpl.
    + destruct (eq_str key k) eqn:E; [|reflexivity].
      destruct key; simpl in *; try discriminate.
      apply String.eqb_eq in E, E'. congruence.
    + destruct (eq_str key k); [reflexivity|exact IH].
Qed.

Lemma dict_get_filter (d : dict) (s : list string) (k : string) :
  dict_get (filter (fun kv => in_str_set (fst kv) s) d) k
  = if in_str_set (VStr k) s then dict_get d k else None.
Proof.
  induction d as [|[key x] d IH]; simpl.
  - now destruct (in_str_set (VStr k) s).
  - destruct (eq_str key k) eqn:E.
    + destruct key; simpl in E; try discriminate.
      apply String.eqb_eq in E. subst s0.
      destruct (in_str_set (VStr k) s) eqn:Es; simpl.
      * now rewrite String.eqb_refl.
      * exact IH.
    + destruct (in_str_set key s); simpl; [rewrite E|]; exact IH.
Qed.

Lemma in_str_set_In (k : string) (s : list string) :
  in_str_set (VStr k) s = true <-> In k s.
Proof.
  unfold in_str_set. rewrite existsb_exists. split.
  - intros (t & Ht & E). simpl in E. apply String.eqb_eq in E. now subst.
  - intros H. exists k. split; [assumption|]. simpl. apply String.eqb_refl.
Qed.

(** What a successful extraction returned. *)
Lemma extract_resource_metadata_inv resource load_info metadata :
  extract_resource_metadata resource load_info = Ok metadata ->
  exists jobs,
    metadata
    = dict_set
        (filter (fun kv => in_str_set (fst kv) dlt_base_metadata_types)
           (_cast_load_info_metadata (asdict load_info)))
        "jobs" (VList jobs).
Proof.
  unfold extract_resource_metadata.
  destruct (iterate _) as [ps|]; simpl; [|discriminate].
  destruct (jobs_of_packages ps (table_name resource)) as [jobs|]; simpl;
    [|discriminate].
  intros [= <-]. now exists jobs.
Qed.

(** X3.  Whatever the report, the metadata a successful extraction returns
    has only [str] keys, each one of the six allow-listed field names or
    [jobs], and its [jobs] entry is a list. *)
Theorem extract_resource_metadata_keys resource load_info metadata :
  extract_resource_metadata resource load_info = Ok metadata ->
  Forall (fun kv => exists k, fst kv = VStr k /\
                              (In k dlt_base_metadata_types \/ k = "jobs"))
    metadata /\
  exists jobs, dict_get metadata "jobs" = Some (VList jobs).
Proof.
  intros H. apply extract_resource_metadata_inv in H as (jobs & ->). split.
  - apply (dict_set_keys _ "jobs" (VList jobs)
             (fun key => exists k, key = VStr k /\
                         (In k dlt_base_metadata_types \/ k = "jobs"))).
    + apply Forall_forall. intros kv Hkv. apply filter_In in Hkv as [_ Hk].
      apply in_str_set_inv in Hk as (t & -> & Ht). exists t. auto.
    + exists "jobs". auto.
  - exists jobs. apply dict_get_set.
Qed.

Lemma extract_resource_metadata_keys_witness :
  exists metadata,
    extract_resource_metadata Scenario.alpha Cases.no_packages = Ok metadata /\
    Forall (fun kv => exists k, fst kv = VStr k /\
                                (In k dlt_base_metadata_types \/ k = "jobs"))
      metadata.
Proof.
  eexists. split; [reflexivity|].
  apply (extract_resource_metadata_keys Scenario.alpha Cases.no_packages).
  reflexivity.
Defined.

(** X4.  In the metadata of a successful extraction an allow-listed field
    holds the normal form of what the report holds under it (and is absent
    when the report lacks it); a field that is neither allow-listed nor
    [jobs] is absent. *)
Theorem extract_resource_metadata_fields resource load_info metadata :
  extract_resource_metadata resource load_info = Ok metadata ->
  (forall k, In k dlt_base_metadata_types ->
     dict_get metadata k
     = option_map _recursive_cast (dict_get (asdict load_info) k)) /\
  (forall k, ~ In k dlt_base_metadata_types -> k <> "jobs" ->
     dict_get metadata k = None).
Proof.
  intros H. apply extract_resource_metadata_inv in H as (jobs & ->). split.
  - intros k Hk. rewrite dict_get_set_other.
    + rewrite dict_get_filter.
      apply in_str_set_In in Hk. rewrite Hk. apply dict_get_cast.
    + intros ->. simpl in Hk.
      repeat (destruct Hk as [Hk|Hk]; [discriminate|]). exact Hk.
  - intros k Hk Hj. rewrite dict_get_set_other by assumption.
    rewrite dict_get_filter.
    destruct (in_str_set (VStr k) dlt_base_metadata_types) eqn:E;
      [|reflexivity].
    apply in_str_set_In in E. contradiction.
Qed.

Lemma extract_resource_metadata_fields_witness :
  exists metadata,
    extract_resource_metadata Scenario.beta Scenario.load_info = Ok metadata /\
    dict_get metadata "started_at"
    = Some (VStr "2024-01-01T00:00:00+00:00") /\
    dict_get metadata "pipeline" = None.
Proof.
  eexists. split; [reflexivity|].
  destruct (extract_resource_metadata_fields Scenario.beta Scenario.load_info
              _ eq_refl) as [H1 H2].
  split.
  - rewrite (H1 "started_at"); [reflexivity|]. simpl. auto.
  - apply H2; [|discriminate].
    simpl. intros H. repeat (destruct H as [H|H]; [discriminate|]). exact H.
Defined.

Lemma jobs_of_table_same_fate (jobs : list value) (t1 t2 : string) :
  same_fate (jobs_of_table jobs t1) (jobs_of_table jobs t2).
Proof.
  induction jobs as [|job jobs IH]; simpl; [exact I|].
  destruct job; simpl; try reflexivity;
    (destruct (jobs_of_table jobs t1), (jobs_of_table jobs t2); simpl in *;
     auto).
Qed.

Lemma jobs_of_packages_same_fate (packages : list value) (t1 t2 : string) :
  same_fate (jobs_of_packages packages t1) (jobs_of_packages packages t2).
Proof.
  induction packages as [|p packages IH]; simpl; [exact I|].
  destruct p; simpl; try reflexivity;
    (destruct (iterate (dict_get_default items "jobs" (VList []))) as [js|];
     simpl; [|reflexivity];
     pose proof (jobs_of_table_same_fate js t1 t2) as Hj;
     destruct (jobs_of_table js t1), (jobs_of_table js t2); simpl in *; auto;
     try contradiction;
     destruct (jobs_of_packages packages t1), (jobs_of_packages packages t2);
     simpl in *; auto).
Qed.

Lemma extract_resource_metadata_same_fate r1 r2 load_info :
  same_fate (extract_resource_metadata r1 load_info)
    (extract_resource_metadata r2 load_info).
Proof.
  unfold extract_resource_metadata.
  destruct (iterate _) as [ps|]; simpl; [|reflexivity].
  pose proof (jobs_of_packages_same_fate ps (table_name r1) (table_name r2))
    as H.
  destruct (jobs_of_packages ps (table_name r1)),
    (jobs_of_packages ps (table_name r2)); simpl in *; auto.
Qed.

(** X5.  Whether the extraction raises, and what, is decided by the report
    alone: it raises an exception for one resource exactly when it raises
    the same exception for every other. *)
Theorem extract_resource_metadata_raise_independent r1 r2 load_info e :
  extract_resource_metadata r1 load_info = Raise e <->
  extract_resource_metadata r2 load_info = Raise e.
Proof.
  pose proof (extract_resource_metadata_same_fate r1 r2 load_info) as H.
  destruct (extract_resource_metadata r1 load_info),
    (extract_resource_metadata r2 load_info); simpl in H;
    try contradiction; split; intros E; try discriminate; congruence.
Qed.

Lemma _cast_load_info_metadata_idempotent (mapping : dict) :
  _cast_load_info_metadata (_cast_load_info_metadata mapping)
  = _cast_load_info_metadata mapping.
Proof.
  pose proof (_recursive_cast_idempotent (VDict mapping)) as H.
  simpl in H. now injection H.
Qed.

Lemma _cast_load_info_metadata_filter (f : value -> bool) (d : dict) :
  _cast_load_info_metadata (filter (fun kv => f (fst kv)) d)
  = filter (fun kv => f (fst kv)) (_cast_load_info_metadata d).
Proof.
  induction d as [|[k x] d IH]; simpl; [reflexivity|].
  destruct (f k); simpl; now rewrite IH.
Qed.

Lemma _cast_load_info_metadata_set (d : dict) (k : string) (v : value) :
  _cast_load_info_metadata (dict_set d k v)
  = dict_set (_cast_load_info_metadata d) k (_recursive_cast v).
Proof.
  induction d as [|[k' x] d IH]; simpl; [reflexivity|].
  destruct (eq_str k' k); simpl; [reflexivity|]. now rewrite IH.
Qed.

(** X6.  On a report of dlt's shape the extracted metadata is already in
    normal form: normalising it again changes nothing. *)
Theorem extract_resource_metadata_normal resource load_info metadata :
  well_formed (asdict load_info) = true ->
  extract_resource_metadata resource load_info = Ok metadata ->
  _cast_load_info_metadata metadata = metadata.
Proof.
  intros Hwf H.
  rewrite (extract_resource_metadata_ok resource load_info Hwf) in H.
  injection H as <-.
  rewrite _cast_load_info_metadata_set.
  rewrite (_cast_load_info_metadata_filter
             (fun k => in_str_set k dlt_base_metadata_types)).
  rewrite _cast_load_info_metadata_idempotent.
  f_equal. simpl. f_equal. rewrite map_map.
  apply map_ext. apply _recursive_cast_idempotent.
Qed.

Lemma extract_resource_metadata_normal_witness :
  exists metadata,
    extract_resource_metadata Scenario.alpha Scenario.load_info = Ok metadata /\
    _cast_load_info_metadata metadata = metadata.
Proof.
  eexists. split; [reflexivity|].
  apply (extract_resource_metadata_normal Scenario.alpha Scenario.load_info);
    reflexivity.
Defined.

(** X7.  Extracting from a report that was normalised beforehand gives what
    extracting from the report gives. *)
Theorem extract_resource_metadata_of_normalised resource load_info :
  extract_resource_metadata resource
    (mkLoadInfo (_cast_load_info_metadata (asdict load_info)))
  = extract_resource_metadata resource load_info.
Proof.
  unfold extract_resource_metadata. simpl.
  now rewrite _cast_load_info_metadata_idempotent.
Qed.

(** X8.  The [load_packages] entry at its edges: when the report has none,
    the extraction returns with an empty [jobs] list; when it holds a value
    a [for] clause cannot iterate over ([None], a number, a boolean, or an
    object of a class without iteration; a set or another iterable is not
    among them), the extraction raises [TypeError]. *)
Theorem extract_resource_metadata_load_packages resource load_info :
  (dict_get (asdict load_info) "load_packages" = None ->
   exists metadata,
     extract_resource_metadata resource load_info = Ok metadata /\
     dict_get metadata "jobs" = Some (VList [])) /\
  (forall v,
     dict_get (asdict load_info) "load_packages" = Some v ->
     not_iterable v = true ->
     extract_resource_metadata resource load_info = Raise TypeError).
Proof.
  unfold extract_resource_metadata, dict_get_default. rewrite dict_get_cast.
  split.
  - intros ->. simpl. eexists. split; [reflexivity|]. apply dict_get_set.
  - intros v -> Hv. destruct v; simpl in *; try discriminate; reflexivity.
Qed.

Lemma extract_resource_metadata_load_packages_witness :
  (exists metadata,
     extract_resource_metadata Scenario.alpha Cases.no_packages = Ok metadata /\
     dict_get metadata "jobs" = Some (VList [])) /\
  extract_resource_metadata Scenario.alpha Cases.null_packages
  = Raise TypeError.
Proof.
  split.
  - apply (extract_resource_metadata_load_packages Scenario.alpha
             Cases.no_packages). reflexivity.
  - apply (proj2 (extract_resource_metadata_load_packages Scenario.alpha
                    Cases.null_packages) VNone); reflexivity.
Defined.

Lemma jobs_of_table_table_name_is (jobs selected : list value)
  (table : string) :
  jobs_of_table jobs table = Ok selected ->
  forallb (table_name_is table) selected = true.
Proof.
  revert selected. induction jobs as [|job jobs IH]; simpl; intros selected.
  - now intros [= <-].
  - destruct job; simpl; try discriminate;
      (destruct (jobs_of_table jobs table) as [sel|]; simpl; [|discriminate];
       intros [= <-];
       destruct (eq_str (dict_get_default items "table_name" VNone) table)
         eqn:E; simpl; [rewrite E; simpl|]; now apply IH).
Qed.

Lemma jobs_of_packages_table_name_is (packages selected : list value)
  (table : string) :
  jobs_of_packages packages table = Ok selected ->
  forallb (table_name_is table) selected = true.
Proof.
  revert selected.
  induction packages as [|p packages IH]; simpl; intros selected.
  - now intros [= <-].
  - destruct p; simpl; try discriminate;
      (destruct (iterate _) as [js|]; simpl; [|discriminate];
       destruct (jobs_of_table js table) as [here|] eqn:Eh; simpl;
       [|discriminate];
       destruct (jobs_of_packages packages table) as [later|]; simpl;
       [|discriminate];
       intros [= <-]; rewrite forallb_app;
       rewrite (jobs_of_table_table_name_is _ _ _ Eh); now apply IH).
Qed.

(** X9.  Whatever the shape of the report, every record in the [jobs] entry
    of a successful extraction is a dict or another mapping whose
    [table_name], read through [get], equals the resource's table name: a
    job of another table is never reported. *)
Theorem extract_resource_metadata_only_own_jobs resource load_info metadata
  jobs :
  extract_resource_metadata resource load_info = Ok metadata ->
  dict_get metadata "jobs" = Some (VList jobs) ->
  forallb (table_name_is (table_name resource)) jobs = true.
Proof.
  unfold extract_resource_metadata.
  destruct (iterate _) as [ps|]; simpl; [|discriminate].
  destruct (jobs_of_packages ps (table_name resource)) as [sel|] eqn:E;
    simpl; [|discriminate].
  intros [= <-]. rewrite dict_get_set. intros [= <-].
  apply (jobs_of_packages_table_name_is _ _ _ E).
Qed.

Lemma extract_resource_metadata_only_own_jobs_witness :
  forallb (table_name_is "customers") [Scenario.customers_job] = true.
Proof.
  apply (extract_resource_metadata_only_own_jobs Scenario.beta
           Scenario.load_info
           [ (VStr "first_run", VBool true);
             (VStr "started_at", VStr "2024-01-01T00:00:00+00:00");
             (VStr "jobs", VList [Scenario.customers_job]) ]);
    reflexivity.
Defined.

(** ** The run *)

Lemma as_source_truthy entry src :
  as_source entry = Some src -> truthy entry = true.
Proof. destruct entry as [[]|]; simpl; congruence. Qed.

Lemma as_pipeline_truthy entry pl :
  as_pipeline entry = Some pl -> truthy entry = true.
Proof. destruct entry as [[]|]; simpl; congruence. Qed.

(** The ways a run can go. *)
Lemma run_inv (dagster : Dagster) (context : Context) (kwargs : Kwargs) :
  (stored_references context = None /\
   trace (run dagster context kwargs) = [] /\
   (raised (run dagster context kwargs) = Some RuntimeError \/
    raised (run dagster context kwargs) = Some ConfigurationError \/
    raised (run dagster context kwargs) = Some AttributeError)) \/
  (exists dlt_source dlt_pipeline,
     stored_references context = Some (dlt_source, dlt_pipeline) /\
     ((exists what,
         pipeline_run dlt_pipeline
           (snd (execution_pairing context dlt_source)) kwargs = Failed what /\
         run dagster context kwargs
         = mkRun [PipelineRun (snd (execution_pairing context dlt_source))
                    kwargs]
             (Some (PipelineExecutionFailure what))) \/
      (exists load_info,
         pipeline_run dlt_pipeline
           (snd (execution_pairing context dlt_source)) kwargs
         = Loaded load_info /\
         run dagster context kwargs
         = mkRun
             (PipelineRun (snd (execution_pairing context dlt_source)) kwargs
              :: trace (emit dagster (context_class context)
                          (fst (execution_pairing context dlt_source))
                          load_info))
             (raised (emit dagster (context_class context)
                        (fst (execution_pairing context dlt_source))
                        load_info))))).
Proof.
  unfold run, stored_references.
  destruct (metadata_by_key (assets_def context)) as [|[k m] rest].
  { left. simpl. auto. }
  set (s := metadata_get m META_KEY_SOURCE).
  set (p := metadata_get m META_KEY_PIPELINE).
  cbv zeta.
  destruct (as_source s) as [src|] eqn:As.
  - destruct (as_pipeline p) as [pl|] eqn:Ap.
    + rewrite (as_source_truthy _ _ As), (as_pipeline_truthy _ _ Ap).
      cbn [negb orb].
      right. exists src, pl. split; [reflexivity|].
      destruct (execution_pairing context src) as [mapping narrowed].
      cbn [fst snd].
      destruct (pipeline_run pl narrowed kwargs) as [load_info|what].
      * right. now exists load_info.
      * left. now exists what.
    + left. split; [reflexivity|].
      destruct (negb (truthy s) || negb (truthy p)); cbn [trace raised];
        [auto|].
      destruct (execution_pairing context src). cbn [trace raised]. auto.
  - left. split; [reflexivity|].
    destruct (negb (truthy s) || negb (truthy p)); cbn [trace raised]; auto.
Qed.

Lemma materialization_ok_iff dagster c k md :
  (exists m, materialization dagster c k md = Ok m) <->
  c = AssetExecutionContext \/ accepts_metadata dagster md = true.
Proof.
  unfold materialization. destruct c.
  - split; [auto|]. intros _. eexists; reflexivity.
  - destruct (accepts_metadata dagster md).
    + split; [auto|]. intros _. eexists; reflexivity.
    + split.
      * intros [m H]. discriminate.
      * intros [H|H]; discriminate.
Qed.

Lemma extract_one_then_all r load_info md :
  extract_resource_metadata r load_info = Ok md ->
  forall r', exists md', extract_resource_metadata r' load_info = Ok md'.
Proof.
  intros H r'.
  pose proof (extract_resource_metadata_same_fate r r' load_info) as F.
  rewrite H in F.
  destruct (extract_resource_metadata r' load_info) as [md'|];
    [now exists md'|contradiction].
Qed.

(** An exception of the loop that is not Dagster's comes from the
    extraction. *)
Lemma emit_extraction_error dagster c mapping load_info e :
  raised (emit dagster c mapping load_info) = Some e ->
  e <> DagsterInvalidMetadata ->
  exists r, extract_resource_metadata r load_info = Raise e.
Proof.
  induction mapping as [|[k r] mapping IH]; simpl; [discriminate|].
  destruct (extract_resource_metadata r load_info) as [md|] eqn:E; simpl.
  - destruct (materialization dagster c k md) as [m|] eqn:M; simpl.
    + exact IH.
    + intros [= <-] Hne. apply materialization_raises in M as [-> _].
      congruence.
  - intros [= <-] _. now exists r.
Qed.

Lemma emit_raised_nothing_yielded dagster c mapping load_info e :
  raised (emit dagster c mapping load_info) = Some e ->
  e <> DagsterInvalidMetadata ->
  yielded (emit dagster c mapping load_info) = [].
Proof.
  intros Hr Hne.
  destruct (emit_extraction_error _ _ _ _ _ Hr Hne) as [r0 E0].
  destruct mapping as [|[k r] mapping]; [reflexivity|]. simpl.
  destruct (extract_resource_metadata r load_info) as [md|] eqn:E;
    [|reflexivity].
  destruct (extract_one_then_all r load_info md E r0) as [md0 E0'].
  congruence.
Qed.

Lemma emit_dagster_error dagster c mapping load_info :
  raised (emit dagster c mapping load_info) = Some DagsterInvalidMetadata ->
  c = OpExecutionContext.
Proof.
  induction mapping as [|[k r] mapping IH]; simpl; [discriminate|].
  destruct (extract_resource_metadata r load_info) as [md|] eqn:E; simpl.
  - destruct (materialization dagster c k md) as [m|] eqn:M; simpl.
    + exact IH.
    + intros _. now apply materialization_raises in M as (_ & -> & _).
  - intros [= H]. subst.
    destruct (extract_resource_metadata_raises _ _ _ E); discriminate.
Qed.

Lemma emit_keys_prefix dagster c mapping load_info :
  exists rest,
    map fst mapping
    = map materialization_key (yielded (emit dagster c mapping load_info))
      ++ rest.
Proof.
  induction mapping as [|[k r] mapping [rest IH]]; cbn [emit map fst].
  - now exists [].
  - destruct (extract_resource_metadata r load_info) as [md|];
      [|now exists (k :: map fst mapping)].
    destruct (materialization dagster c k md) as [m|] eqn:M;
      [|now exists (k :: map fst mapping)].
    exists rest. cbv zeta. rewrite yielded_cons_yield, emit_eta.
    cbn [map app].
    apply materialization_inv in M as (-> & _). now rewrite <- IH.
Qed.

Lemma emit_record_class dagster c mapping load_info :
  Forall (fun m => is_materialize_result m
                   = match c with
                     | AssetExecutionContext => true
                     | OpExecutionContext => false
                     end)
    (yielded (emit dagster c mapping load_info)).
Proof.
  induction mapping as [|[k r] mapping IH]; cbn [emit]; [constructor|].
  destruct (extract_resource_metadata r load_info) as [md|];
    [|constructor].
  destruct (materialization dagster c k md) as [m|] eqn:M;
    [|constructor].
  cbv zeta. rewrite yielded_cons_yield, emit_eta. constructor; [|exact IH].
  now apply materialization_inv in M as (_ & _ & ->).
Qed.

(** An entry the loop gets past: the extraction reads the load info for
    its resource and the record class takes the metadata. *)
Lemma emit_returns_iff dagster c mapping load_info :
  raised (emit dagster c mapping load_info) = None <->
  Forall (fun entry =>
            exists md,
              extract_resource_metadata (snd entry) load_info = Ok md /\
              (c = AssetExecutionContext \/
               accepts_metadata dagster md = true)) mapping.
Proof.
  induction mapping as [|[k r] mapping IH]; simpl.
  - split; [constructor|reflexivity].
  - destruct (extract_resource_metadata r load_info) as [md|] eqn:E; simpl.
    + destruct (materialization dagster c k md) as [m|] eqn:M; simpl.
      * rewrite IH. split.
        -- intros H. constructor; [|exact H]. exists md. cbn [snd].
           split; [exact E|].
           apply (proj1 (materialization_ok_iff dagster c k md)).
           now exists m.
        -- intros H. now inversion H.
      * split; [discriminate|]. intros H.
        inversion H as [|? ? (md' & E' & Hc) _].
        cbn [snd] in E'. rewrite E in E'. injection E' as <-.
        apply (proj2 (materialization_ok_iff dagster c k md)) in Hc.
        destruct Hc as [m Hm]. congruence.
    + split; [discriminate|]. intros H. inversion H as [|? ? (md' & E' & _) _].
      cbn [snd] in E'. congruence.
Qed.

Lemma emit_returns_length dagster c mapping load_info :
  raised (emit dagster c mapping load_info) = None ->
  List.length (yielded (emit dagster c mapping load_info))
  = List.length mapping.
Proof.
  induction mapping as [|[k r] mapping IH]; cbn [emit]; [reflexivity|].
  destruct (extract_resource_metadata r load_info) as [md|];
    [|discriminate].
  destruct (materialization dagster c k md) as [m|]; [|discriminate].
  cbv zeta. cbn [raised].
  intros H. rewrite yielded_cons_yield, emit_eta. cbn [List.length].
  now rewrite IH.
Qed.

Lemma combine_fst_prefix (A B : Type) (l : list A) (l' : list B) :
  exists rest, l = map fst (combine l l') ++ rest.
Proof.
  revert l'. induction l as [|a l IH]; intros l'; simpl.
  - now exists [].
  - destruct l' as [|b l']; simpl; [now exists (a :: l)|].
    destruct (IH l') as [rest E]. exists rest. now rewrite <- E.
Qed.

Lemma combine_map_self (A B : Type) (f : A -> B) (l : list A) :
  combine (map f l) l = map (fun x => (f x, x)) l.
Proof.
  induction l as [|a l IH]; simpl; [reflexivity|]. now rewrite IH.
Qed.

(** X10.  In a unit built by [dlt_assets] every node carries the source
    and the pipeline it was built from.  A run of such a unit raises the
    generator's [RuntimeError] exactly when the source has no resource,
    never raises the exception of line 159, and, when the source has a
    resource, executes the pipeline once, on the source the pairing step
    hands over. *)
Theorem dlt_assets_run (dagster : Dagster)
  (translator : DltDagsterTranslator)
  (dlt_source : DltSource) (dlt_pipeline : Pipeline)
  (nm grp : option string) (context : Context) (kwargs : Kwargs) :
  assets_def context
  = dlt_assets dlt_source dlt_pipeline nm grp translator ->
  Forall (fun km =>
            as_source (metadata_get (snd km) META_KEY_SOURCE)
            = Some dlt_source /\
            as_pipeline (metadata_get (snd km) META_KEY_PIPELINE)
            = Some dlt_pipeline)
    (metadata_by_key (assets_def context)) /\
  (raised (run dagster context kwargs) = Some RuntimeError <->
   resources dlt_source = []) /\
  raised (run dagster context kwargs) <> Some ConfigurationError /\
  (resources dlt_source <> [] ->
   executed (run dagster context kwargs)
   = [snd (execution_pairing context dlt_source)]).
Proof.
  intros Hdef. split.
  { rewrite Hdef. unfold dlt_assets, metadata_by_key. simpl.
    rewrite map_map. apply Forall_forall. intros km Hkm.
    apply in_map_iff in Hkm as (r & <- & _). simpl. now split. }
  assert (Hrefs : stored_references context
                  = match resources dlt_source with
                    | [] => None
                    | _ => Some (dlt_source, dlt_pipeline)
                    end).
  { unfold stored_references. rewrite Hdef.
    unfold dlt_assets, metadata_by_key. simpl.
    now destruct (resources dlt_source). }
  assert (Hempty : resources dlt_source = [] ->
                   run dagster context kwargs
                   = mkRun [] (Some RuntimeError)).
  { intros E. unfold run. rewrite Hdef.
    unfold dlt_assets, metadata_by_key. simpl. now rewrite E. }
  destruct (run_inv dagster context kwargs)
    as [(Hnone & _ & _) | (src & pl & Hsome & Hrun)].
  - rewrite Hnone in Hrefs.
    destruct (resources dlt_source) eqn:E; [|discriminate].
    rewrite (Hempty eq_refl). simpl.
    repeat split; auto; try discriminate; try congruence.
  - rewrite Hsome in Hrefs.
    destruct (resources dlt_source) eqn:E; [discriminate|].
    injection Hrefs as -> ->.
    destruct Hrun as [(what & _ & ->) | (load_info & _ & ->)]; simpl.
    + split; [split; discriminate|]. split; [discriminate|reflexivity].
    + split; [split; [|discriminate]|split].
      * intros H. apply emit_raises in H as [H|[H|H]]; discriminate.
      * apply emit_not_configuration_error.
      * intros _. unfold executed. simpl. f_equal. apply executed_emit.
Qed.

Lemma dlt_assets_run_witness :
  raised (run Cases.lenient Cases.failing []) <> Some ConfigurationError /\
  executed (run Cases.lenient Cases.failing []) = [Scenario.source].
Proof.
  destruct (dlt_assets_run Cases.lenient default_translator Scenario.source
              Cases.failing_pipeline None None Cases.failing [] eq_refl)
    as (_ & _ & H1 & H2).
  split; [exact H1|]. apply H2. discriminate.
Defined.

(** X11.  When iterating the selected keys produces the keys of the
    resources in resource order, the pairing built on lines 166-176 pairs
    every resource with the key the translator derives for it, in a full
    run and in a subset run alike. *)
Theorem execution_pairing_aligned (translator : DltDagsterTranslator)
  (context : Context) (dlt_source : DltSource) :
  selected_asset_keys context
  = map (get_asset_key translator) (resources dlt_source) ->
  fst (execution_pairing context dlt_source)
  = map (fun r => (get_asset_key translator r, r)) (resources dlt_source) /\
  fst (execution_pairing context dlt_source)
  = derived_pairing translator context dlt_source.
Proof.
  intros Hk.
  assert (H : fst (execution_pairing context dlt_source)
              = map (fun r => (get_asset_key translator r, r))
                  (resources dlt_source)).
  { rewrite execution_pairing_zip, Hk. apply combine_map_self. }
  split; [exact H|]. rewrite H. unfold derived_pairing.
  destruct (is_subset context); [|reflexivity].
  symmetry. apply filter_all. intros [k r] Hin. simpl.
  apply in_map_iff in Hin as (r' & [= <- <-] & Hr').
  apply selected_In. rewrite Hk. now apply in_map.
Qed.

Lemma execution_pairing_aligned_witness :
  fst (execution_pairing Scenario.full Scenario.source)
  = [ (default_get_asset_key Scenario.alpha, Scenario.alpha);
      (default_get_asset_key Scenario.beta, Scenario.beta) ].
Proof.
  apply (execution_pairing_aligned default_translator Scenario.full
           Scenario.source).
  reflexivity.
Defined.

(** X12.  The keys of the records a run yields are, in order, an initial
    segment of the selected keys as iteration produces them: a run never
    reports a key that was not selected, and never more records than keys
    were selected. *)
Theorem run_yields_selected_keys (dagster : Dagster) (context : Context)
  (kwargs : Kwargs) :
  exists rest,
    selected_asset_keys context
    = map materialization_key (yielded (run dagster context kwargs)) ++ rest.
Proof.
  destruct (run_inv dagster context kwargs)
    as [(_ & Ht & _) | (src & pl & _ & [(what & _ & ->) | (li & _ & ->)])].
  - unfold yielded. rewrite Ht. now exists (selected_asset_keys context).
  - now exists (selected_asset_keys context).
  - rewrite yielded_after_execution, emit_eta.
    destruct (emit_keys_prefix dagster (context_class context)
                (fst (execution_pairing context src)) li) as [rest1 E1].
    rewrite execution_pairing_zip in E1 at 1.
    destruct (combine_fst_prefix _ _ (selected_asset_keys context)
                (resources src)) as [rest2 E2].
    exists (rest1 ++ rest2). rewrite app_assoc, <- E1. exact E2.
Qed.

(** X13.  A run that ends in an exception other than Dagster's
    [DagsterInvalidMetadata] has yielded nothing: the exceptions of the
    resolution step and of the pipeline come before the loop, and a load
    info the extraction cannot read fails at the first entry.
    [DagsterInvalidMetadata] ends a run under an [OpExecutionContext]
    only, where it can come after records were yielded. *)
Theorem run_raised_nothing_yielded (dagster : Dagster) (context : Context)
  (kwargs : Kwargs) :
  (forall e,
     raised (run dagster context kwargs) = Some e ->
     e <> DagsterInvalidMetadata ->
     yielded (run dagster context kwargs) = []) /\
  (raised (run dagster context kwargs) = Some DagsterInvalidMetadata ->
   context_class context = OpExecutionContext).
Proof.
  destruct (run_inv dagster context kwargs)
    as [(_ & Ht & Hr)
       | (src & pl & _ & [(what & _ & ->) | (li & _ & ->)])].
  - split.
    + intros e _ _. unfold yielded. now rewrite Ht.
    + intros H. destruct Hr as [Hr|[Hr|Hr]]; rewrite Hr in H; discriminate.
  - split; [reflexivity|discriminate].
  - cbn [raised]. split.
    + intros e He Hne. rewrite yielded_after_execution, emit_eta.
      now apply (emit_raised_nothing_yielded _ _ _ _ e).
    + apply emit_dagster_error.
Qed.

Lemma run_raised_nothing_yielded_witness :
  yielded (run Cases.lenient Cases.failing []) = [].
Proof.
  apply (proj1 (run_raised_nothing_yielded Cases.lenient Cases.failing [])
           (PipelineExecutionFailure "destination unreachable"));
    [reflexivity|discriminate].
Defined.

(** X15.  Every record of a run is a [MaterializeResult] when the context
    is an [AssetExecutionContext] and an [AssetMaterialization] when it is
    an [OpExecutionContext]. *)
Theorem run_record_class (dagster : Dagster) (context : Context)
  (kwargs : Kwargs) :
  Forall (fun m => is_materialize_result m
                   = match context_class context with
                     | AssetExecutionContext => true
                     | OpExecutionContext => false
                     end)
    (yielded (run dagster context kwargs)).
Proof.
  destruct (run_inv dagster context kwargs)
    as [(_ & Ht & _) | (src & pl & _ & [(what & _ & ->) | (li & _ & ->)])].
  - unfold yielded. rewrite Ht. constructor.
  - constructor.
  - rewrite yielded_after_execution, emit_eta. apply emit_record_class.
Qed.

(** X16.  A run ends in a pipeline failure exactly when both references
    resolve and the pipeline, run on the source of the pairing step, fails
    with that failure; the run then consists of the one execution. *)
Theorem run_pipeline_failure (dagster : Dagster) (context : Context)
  (kwargs : Kwargs) (what : string) :
  (raised (run dagster context kwargs)
   = Some (PipelineExecutionFailure what) <->
   exists dlt_source dlt_pipeline,
     stored_references context = Some (dlt_source, dlt_pipeline) /\
     pipeline_run dlt_pipeline
       (snd (execution_pairing context dlt_source)) kwargs = Failed what) /\
  (raised (run dagster context kwargs)
   = Some (PipelineExecutionFailure what) ->
   List.length (trace (run dagster context kwargs)) = 1).
Proof.
  destruct (run_inv dagster context kwargs)
    as [(Hn & Ht & Hr)
       | (src & pl & Hs & [(what' & Hf & ->) | (li & Hl & ->)])].
  - split; [split|].
    + intros H. destruct Hr as [Hr|[Hr|Hr]]; rewrite Hr in H; discriminate.
    + intros (s & p & Hs & _). congruence.
    + intros H. destruct Hr as [Hr|[Hr|Hr]]; rewrite Hr in H; discriminate.
  - simpl. split; [split|].
    + intros [= <-]. now exists src, pl.
    + intros (s & p & Hs' & Hf'). rewrite Hs in Hs'. injection Hs' as <- <-.
      congruence.
    + reflexivity.
  - simpl. split; [split|].
    + intros H. apply emit_raises in H as [H|[H|H]]; discriminate.
    + intros (s & p & Hs' & Hf'). rewrite Hs in Hs'. injection Hs' as <- <-.
      congruence.
    + intros H. apply emit_raises in H as [H|[H|H]]; discriminate.
Qed.

Lemma run_pipeline_failure_witness :
  List.length (trace (run Cases.lenient Cases.failing [])) = 1.
Proof.
  apply (proj2 (run_pipeline_failure Cases.lenient Cases.failing []
                  "destination unreachable")).
  reflexivity.
Defined.

(** X29.  The pairing is positional and the subset flag does not change
    it: in every run the i-th entry pairs the i-th selected key, as
    iteration produces them, with the i-th resource of the source, and the
    pairing stops where the shorter of the two ends. *)
Theorem execution_pairing_positional (context : Context)
  (dlt_source : DltSource) :
  map fst (fst (execution_pairing context dlt_source))
  = firstn (List.length (resources dlt_source)) (selected_asset_keys context)
  /\
  map snd (fst (execution_pairing context dlt_source))
  = firstn (List.length (selected_asset_keys context)) (resources dlt_source)
  /\
  List.length (fst (execution_pairing context dlt_source))
  = Nat.min (List.length (selected_asset_keys context))
      (List.length (resources dlt_source)).
Proof.
  rewrite execution_pairing_zip. split; [|split].
  - apply combine_fst_firstn.
  - apply combine_snd_firstn.
  - apply length_combine.
Qed.

(** ** The translator *)

(** X17.  With the default translator a node never depends on itself: the
    key of a resource is not among its dependency keys. *)
Theorem default_deps_exclude_own_key (resource : DltResource) :
  ~ In (get_asset_key default_translator resource)
      (get_deps_asset_keys default_translator resource).
Proof.
  simpl. intros [H|[]].
  unfold default_get_asset_key, AssetKey_of_str in H.
  injection H as H. apply (f_equal String.length) in H. simpl in H. lia.
Qed.

Lemma default_deps_exclude_own_key_witness :
  ~ In (get_asset_key default_translator Scenario.alpha)
      (get_deps_asset_keys default_translator Scenario.alpha).
Proof.
  apply (default_deps_exclude_own_key Scenario.alpha).
Defined.

(** X18.  A unit built with the default translator from a source whose
    resources all carry one source name and pairwise different names has
    pairwise different keys. *)
Theorem dlt_assets_keys_distinct (dlt_source : DltSource)
  (dlt_pipeline : Pipeline) (nm grp : option string) (sn : string) :
  Forall (fun r => source_name r = sn) (resources dlt_source) ->
  NoDup (map name (resources dlt_source)) ->
  NoDup (keys (dlt_assets dlt_source dlt_pipeline nm grp default_translator)).
Proof.
  rewrite keys_dlt_assets. simpl.
  induction (resources dlt_source) as [|r rs IH]; simpl; intros Hsn Hnd.
  - constructor.
  - inversion Hsn as [|? ? Hr Hrs]; subst.
    inversion Hnd as [|? ? Hnotin Hnd']; subst.
    constructor; [|now apply IH].
    intros Hin. apply in_map_iff in Hin as (r' & Heq & Hr').
    apply Hnotin.
    apply default_get_asset_key_eq in Heq.
    rewrite Forall_forall in Hrs. pose proof (Hrs r' Hr') as Hsn'.
    destruct (append_inj_same_length _ _ _ _
                (f_equal String.length Hsn') Heq) as [_ E].
    injection E as E. rewrite <- E. now apply in_map.
Qed.

Lemma dlt_assets_keys_distinct_witness :
  NoDup (keys Scenario.unit_of_work).
Proof.
  apply (dlt_assets_keys_distinct Scenario.source Scenario.pipeline None None
           "src").
  - repeat constructor.
  - repeat constructor; simpl; intuition discriminate.
Defined.

(** X19.  The default key and the default dependency key of two resources
    coincide together: two resources share their dependency key exactly
    when they share their key. *)
Theorem default_keys_collide_together (r1 r2 : DltResource) :
  get_deps_asset_keys default_translator r1
  = get_deps_asset_keys default_translator r2 <->
  get_asset_key default_translator r1 = get_asset_key default_translator r2.
Proof.
  simpl. unfold default_get_deps_asset_keys, default_get_asset_key,
    AssetKey_of_str.
  split; intros H.
  - injection H as H. simpl. now rewrite H.
  - simpl in H. injection H as H. simpl. now rewrite H.
Qed.

(** X20.  A run returns without an exception exactly when both references
    resolve, the pipeline returns a load info, and for every entry of the
    pairing the extraction reads the load info and, under an
    [OpExecutionContext], Dagster stores the metadata; it has then yielded
    as many records as the pairing has entries.  In particular a run with
    an empty pairing returns even on a load info the extraction cannot
    read. *)
Theorem run_returns (dagster : Dagster) (context : Context)
  (kwargs : Kwargs) :
  (raised (run dagster context kwargs) = None <->
   exists dlt_source dlt_pipeline load_info,
     stored_references context = Some (dlt_source, dlt_pipeline) /\
     pipeline_run dlt_pipeline
       (snd (execution_pairing context dlt_source)) kwargs
     = Loaded load_info /\
     Forall (fun entry =>
               exists md,
                 extract_resource_metadata (snd entry) load_info = Ok md /\
                 (context_class context = AssetExecutionContext \/
                  accepts_metadata dagster md = true))
       (fst (execution_pairing context dlt_source))) /\
  (raised (run dagster context kwargs) = None ->
   forall dlt_source dlt_pipeline,
     stored_references context = Some (dlt_source, dlt_pipeline) ->
     List.length (yielded (run dagster context kwargs))
     = List.length (fst (execution_pairing context dlt_source))).
Proof.
  destruct (run_inv dagster context kwargs)
    as [(Hn & Ht & Hr)
       | (src & pl & Hs & [(what & Hf & ->) | (li & Hl & ->)])].
  - split; [split|].
    + intros H. destruct Hr as [Hr|[Hr|Hr]]; rewrite Hr in H; discriminate.
    + intros (s & p & l & Hs & _). congruence.
    + intros H. destruct Hr as [Hr|[Hr|Hr]]; rewrite Hr in H; discriminate.
  - simpl. split; [split|]; try discriminate.
    intros (s & p & l & Hs' & Hl' & _).
    rewrite Hs in Hs'. injection Hs' as <- <-. congruence.
  - simpl. split; [split|].
    + intros H. exists src, pl, li. repeat split; try assumption.
      now apply emit_returns_iff.
    + intros (s & p & l & Hs' & Hl' & Hok).
      rewrite Hs in Hs'. injection Hs' as <- <-.
      rewrite Hl in Hl'. injection Hl' as <-.
      now apply emit_returns_iff.
    + intros H s p Hs'. rewrite Hs in Hs'. injection Hs' as <- <-.
      rewrite yielded_after_execution, emit_eta.
      now apply emit_returns_length.
Qed.

Lemma run_returns_witness :
  List.length (yielded (run Cases.lenient Cases.op_full [])) = 2.
Proof.
  apply (proj2 (run_returns Cases.lenient Cases.op_full []) eq_refl
           Scenario.source Scenario.pipeline).
  reflexivity.
Defined.

(** ** Strings *)

Module OsFacts.
Import Os.

Lemma length_append (s1 s2 : string) :
  String.length (s1 ++ s2) = String.length s1 + String.length s2.
Proof.
  induction s1 as [|c s1 IH]; simpl; [reflexivity|]. now rewrite IH.
Qed.

Lemma prefix_append (old x : string) : String.prefix old (old ++ x) = true.
Proof.
  induction old as [|c old IH]; simpl; [now destruct x|].
  destruct (ascii_dec c c); [exact IH|congruence].
Qed.

Lemma replace_from_skip (old new p x : string) :
  replace_from old new (String.length p) (p ++ x)
  = replace_from old new 0 x.
Proof.
  induction p as [|c p IH]; simpl; [reflexivity|exact IH].
Qed.

Lemma replace_from_absent (old new x : string) :
  occurs old x = false -> replace_from old new 0 x = x.
Proof.
  induction x as [|c x IH]; intros H; [reflexivity|].
  cbn [occurs] in H. apply orb_false_iff in H as [Hp Hr].
  cbn [replace_from]. rewrite Hp. f_equal. now apply IH.
Qed.

(** Replacing a leading [old] by nothing gives back what followed it, when
    [old] does not occur there. *)
Lemma replace_leading (old x : string) :
  old <> EmptyString -> occurs old x = false ->
  replace (old ++ x) old "" = x.
Proof.
  intros Hne Hx. destruct old as [|c old]; [congruence|].
  unfold replace.
  change (String c old ++ x)%string with (String c (old ++ x)).
  cbn [replace_from].
  change (String c (old ++ x)) with (String c old ++ x)%string.
  rewrite prefix_append. simpl String.length.
  replace (S (String.length old) - 1) with (String.length old) by lia.
  rewrite replace_from_skip. simpl append. now apply replace_from_absent.
Qed.

Lemma prefix_char (a c : ascii) (s : string) :
  String.prefix (String a "") (String c s) = Ascii.eqb a c.
Proof.
  change (String.prefix (String a "") (String c s))
    with (if ascii_dec a c then String.prefix "" s else false).
  destruct (ascii_dec a c) as [->|Hne].
  - rewrite Ascii.eqb_refl. now destruct s.
  - symmetry. now apply Ascii.eqb_neq.
Qed.

Lemma replace_hyphen (s : string) :
  occurs "-" (replace s "-" "_") = false /\
  String.length (replace s "-" "_") = String.length s.
Proof.
  unfold replace.
  induction s as [|c s [IH1 IH2]]; [now split|].
  cbn [replace_from]. rewrite prefix_char.
  destruct (Ascii.eqb "-" c) eqn:E.
  - change (String.length "-" - 1) with 0.
    change ("_" ++ replace_from "-" "_" 0 s)%string
      with (String "_" (replace_from "-" "_" 0 s)).
    cbn [occurs String.length]. rewrite prefix_char.
    change (Ascii.eqb "-" "_") with false.
    split; [exact IH1|now rewrite IH2].
  - cbn [occurs String.length]. rewrite prefix_char, E.
    split; [exact IH1|now rewrite IH2].
Qed.

Lemma substring_leading (x y : string) :
  String.substring 0 (String.length x) (x ++ y) = x.
Proof.
  induction x as [|c x IH]; simpl.
  - now destruct y.
  - now rewrite IH.
Qed.

Lemma drop_last_append (x suffix : string) :
  drop_last (String.length suffix) (x ++ suffix) = x.
Proof.
  unfold drop_last. rewrite length_append, Nat.add_sub.
  apply substring_leading.
Qed.

Lemma append_cancel_r (a b suffix : string) :
  (a ++ suffix)%string = (b ++ suffix)%string -> a = b.
Proof.
  intros H.
  assert (Hl : String.length a = String.length b).
  { apply (f_equal String.length) in H. rewrite !length_append in H. lia. }
  now destruct (append_inj_same_length a b suffix suffix Hl H).
Qed.

Lemma path_last_some (p : list string) :
  p <> [] -> exists s, path_last p = Some s.
Proof.
  induction p as [|a p IH]; [congruence|]. intros _.
  destruct p as [|b p]; [now exists a|].
  apply IH. discriminate.
Qed.

Lemma path_last_app (p : list string) (s : string) :
  path_last (p ++ [s]) = Some s.
Proof.
  induction p as [|a p IH]; [reflexivity|].
  simpl. destruct (p ++ [s]) eqn:E; [now destruct p|exact IH].
Qed.

End OsFacts.

(** ** The replication assets *)

Module ReplicationFacts.
Import Os OsFacts Replication.

Lemma statements_app (a b : list Event) :
  statements (a ++ b) = statements a ++ statements b.
Proof. unfold statements. apply flat_map_app. Qed.

Lemma log_lines_app (a b : list Event) :
  log_lines (a ++ b) = log_lines a ++ log_lines b.
Proof. unfold log_lines. apply flat_map_app. Qed.

Lemma cur_execute_taken warehouse history statement rest :
  execute warehouse history statement = None ->
  cur_execute warehouse history statement rest
  = (Execute statement :: fst (rest (history ++ [statement])),
     snd (rest (history ++ [statement]))).
Proof. unfold cur_execute. now intros ->. Qed.

(** Statements the warehouse takes, one after the other. *)
Ltac taken tac :=
  repeat (rewrite cur_execute_taken by tac; cbv beta iota; cbn [fst snd]).

Lemma stages_loop_counts B P env warehouse (keys : list AssetKey) :
  obliging warehouse ->
  Forall (fun k => path k <> []) keys ->
  forall history,
    snd (stages_loop B P env warehouse history keys) = None /\
    List.length (statements (fst (stages_loop B P env warehouse history keys)))
    = 3 * List.length keys /\
    List.length (log_lines (fst (stages_loop B P env warehouse history keys)))
    = List.length keys.
Proof.
  intros (_ & _ & Hex & Hfetch).
  induction 1 as [|k keys Hk _ IH]; intros history; [now repeat split|].
  destruct (path_last_some (path k) Hk) as [name Hname].
  cbn [stages_loop]. rewrite Hname.
  taken ltac:(apply Hex).
  match goal with
  | |- context [fetchall warehouse ?h] =>
      destruct (Hfetch h) as [rows ->]
  end.
  destruct rows as [|row rows];
    taken ltac:(apply Hex); unfold log_info; cbn [fst snd];
    match goal with
    | |- context [stages_loop B P env warehouse ?h keys] =>
        destruct (IH h) as (I1 & I2 & I3)
    end;
    (split; [exact I1|]);
    unfold statements, log_lines in *; cbn [flat_map app List.length];
    rewrite I2, I3; split; lia.
Qed.

Lemma tables_loop_counts env warehouse (keys : list AssetKey) :
  obliging warehouse ->
  Forall (fun k => path k <> []) keys ->
  forall history,
    snd (tables_loop env warehouse history keys) = None /\
    List.length (statements (fst (tables_loop env warehouse history keys)))
    = 2 * List.length keys /\
    List.length (log_lines (fst (tables_loop env warehouse history keys)))
    = List.length keys.
Proof.
  intros (_ & _ & Hex & _).
  induction 1 as [|k keys Hk _ IH]; intros history; [now repeat split|].
  destruct (path_last_some (path k) Hk) as [name Hname].
  cbn [tables_loop]. rewrite Hname.
  taken ltac:(apply Hex). unfold log_info. cbn [fst snd].
  match goal with
  | |- context [tables_loop env warehouse ?h keys] =>
      destruct (IH h) as (I1 & I2 & I3)
  end.
  split; [exact I1|].
  unfold statements, log_lines in *. cbn [flat_map app List.length].
  rewrite I2, I3. split; lia.
Qed.


(** A warehouse that refuses [CREATE STAGE]: the function ends in the
    connector's exception after the statement, and leaves the block. *)
Example stage_refused :
  workspace_replication_aws_stages "bucket" "out" []
    (refusing "CREATE STAGE")
    [ mkAssetKey ["aws"; "cloud-prod"; "workspace_staging_runs"];
      mkAssetKey ["aws"; "cloud-prod"; "workspace_staging_jobs"] ]
  = ([ Enter; Execute "USE ROLE AWS_WRITER;"; Execute "USE SCHEMA AWS.;";
       Execute "SHOW STAGES LIKE 'workspace_staging_runs';";
       Execute (create_stage_query "bucket" "out" [] "workspace_staging_runs");
       Exit ],
     Some (WarehouseError "SQL compilation error")).
Proof. reflexivity. Qed.

End ReplicationFacts.

(** X21.  The object name computed on line 43 undoes the naming of line
    20: for a workspace asset whose last key segment does not contain
    [workspace_staging_], the stage spec is keyed by that segment behind
    the marker, and [object_name] at run time is the segment again. *)
Theorem stage_object_name_round_trip (asset_key : AssetKey) (last : string) :
  Os.path_last (path asset_key) = Some last ->
  Os.occurs "workspace_staging_" last = false ->
  exists spec,
    Replication.stage_spec asset_key = Some spec /\
    option_map Replication.object_name_of
      (Os.path_last (path (Replication.spec_key spec)))
    = Some last.
Proof.
  intros Hl Ho. unfold Replication.stage_spec. rewrite Hl.
  eexists. split; [reflexivity|]. simpl. f_equal.
  unfold Replication.object_name_of.
  apply (OsFacts.replace_leading "workspace_staging_" last);
    [discriminate|assumption].
Qed.

Lemma stage_object_name_round_trip_witness :
  exists spec,
    Replication.stage_spec (mkAssetKey ["aws"; "workspace"; "runs"])
    = Some spec /\
    option_map Replication.object_name_of
      (Os.path_last (path (Replication.spec_key spec)))
    = Some "runs".
Proof.
  apply (stage_object_name_round_trip
           (mkAssetKey ["aws"; "workspace"; "runs"]) "runs");
    reflexivity.
Defined.

(** X22.  Whatever the environment holds, the schema named in the
    [USE SCHEMA] statement of lines 45 and 93 contains no hyphen and is as
    long as the account name it was made from. *)
Theorem use_schema_has_no_hyphen (env : Os.Env) :
  exists schema,
    Replication.use_schema env
    = ("USE SCHEMA AWS." ++ schema ++ ";")%string /\
    Os.occurs "-" schema = false /\
    String.length schema
    = String.length (Os.getenv env Replication.ACCOUNT_NAME "").
Proof.
  exists (Os.replace (Os.getenv env Replication.ACCOUNT_NAME "") "-" "_").
  split; [reflexivity|]. apply OsFacts.replace_hyphen.
Qed.

(** X23.  The external table of a workspace asset is located at the stage
    of that asset: the table spec depends on the stage spec's key, and the
    stage name line 91 cuts out of the table's key is the name under which
    the stage asset creates the stage. *)
Theorem external_table_located_at_stage (asset_key : AssetKey)
  (last : string) :
  Os.path_last (path asset_key) = Some last ->
  exists stage table table_name,
    Replication.stage_spec asset_key = Some stage /\
    Replication.external_table_spec (Replication.spec_key stage)
    = Some table /\
    Replication.spec_deps table = [Replication.spec_key stage] /\
    Os.path_last (path (Replication.spec_key table)) = Some table_name /\
    Some (Replication.stage_name_of table_name)
    = Os.path_last (path (Replication.spec_key stage)).
Proof.
  intros Hl. unfold Replication.stage_spec. rewrite Hl.
  eexists _, _, _. split; [reflexivity|].
  split; [reflexivity|]. split; [reflexivity|]. split; [reflexivity|].
  simpl. f_equal. unfold Replication.stage_name_of.
  apply (OsFacts.drop_last_append ("workspace_staging_" ++ last) "_ext").
Qed.

Lemma external_table_located_at_stage_witness :
  exists stage table table_name,
    Replication.stage_spec (mkAssetKey ["aws"; "workspace"; "runs"])
    = Some stage /\
    Replication.external_table_spec (Replication.spec_key stage)
    = Some table /\
    Replication.spec_deps table = [Replication.spec_key stage] /\
    Os.path_last (path (Replication.spec_key table)) = Some table_name /\
    Some (Replication.stage_name_of table_name)
    = Os.path_last (path (Replication.spec_key stage)).
Proof.
  apply (external_table_located_at_stage
           (mkAssetKey ["aws"; "workspace"; "runs"]) "runs").
  reflexivity.
Defined.

(** X24.  In a warehouse none of whose calls raises, when every selected
    key has a last segment, neither asset function raises; the stage
    function executes [USE ROLE AWS_WRITER;] and then three statements per
    key, the table function two per key, and each writes one log line per
    key, whatever rows the warehouse answers with. *)
Theorem replication_statement_counts (B P : string) (env : Os.Env)
  (warehouse : Replication.Warehouse) (keys : list AssetKey) :
  Replication.obliging warehouse ->
  Forall (fun k => path k <> []) keys ->
  (let r := Replication.workspace_replication_aws_stages B P env warehouse
              keys in
   snd r = None /\
   hd_error (Replication.statements (fst r)) = Some "USE ROLE AWS_WRITER;" /\
   List.length (Replication.statements (fst r)) = 1 + 3 * List.length keys /\
   List.length (Replication.log_lines (fst r)) = List.length keys) /\
  (let r := Replication.workspace_replication_aws_external_tables env
              warehouse keys in
   snd r = None /\
   hd_error (Replication.statements (fst r)) = Some "USE ROLE AWS_WRITER;" /\
   List.length (Replication.statements (fst r)) = 1 + 2 * List.length keys /\
   List.length (Replication.log_lines (fst r)) = List.length keys).
Proof.
  intros Hw Hk. pose proof Hw as (Hc & Hcur & Hex & _). split.
  - destruct (ReplicationFacts.stages_loop_counts B P env warehouse keys Hw Hk
                ([] ++ ["USE ROLE AWS_WRITER;"])) as (I1 & I2 & I3).
    unfold Replication.workspace_replication_aws_stages,
      Replication.with_connection.
    rewrite Hc, Hcur, ReplicationFacts.cur_execute_taken by apply Hex.
    cbv beta. cbn [fst snd].
    split; [exact I1|]. split; [reflexivity|].
    rewrite !ReplicationFacts.statements_app, !ReplicationFacts.log_lines_app,
      !length_app.
    change (Replication.Execute "USE ROLE AWS_WRITER;" :: ?l)
      with ([Replication.Execute "USE ROLE AWS_WRITER;"] ++ l).
    rewrite !ReplicationFacts.statements_app, !ReplicationFacts.log_lines_app,
      !length_app, I2, I3.
    simpl. split; lia.
  - destruct (ReplicationFacts.tables_loop_counts env warehouse keys Hw Hk
                ([] ++ ["USE ROLE AWS_WRITER;"])) as (I1 & I2 & I3).
    unfold Replication.workspace_replication_aws_external_tables,
      Replication.with_connection.
    rewrite Hc, Hcur, ReplicationFacts.cur_execute_taken by apply Hex.
    cbv beta. cbn [fst snd].
    split; [exact I1|]. split; [reflexivity|].
    rewrite !ReplicationFacts.statements_app, !ReplicationFacts.log_lines_app,
      !length_app.
    change (Replication.Execute "USE ROLE AWS_WRITER;" :: ?l)
      with ([Replication.Execute "USE ROLE AWS_WRITER;"] ++ l).
    rewrite !ReplicationFacts.statements_app, !ReplicationFacts.log_lines_app,
      !length_app, I2, I3.
    simpl. split; lia.
Qed.

Lemma replication_statement_counts_witness :
  List.length
    (Replication.statements
       (fst (Replication.workspace_replication_aws_stages "bucket" "out" []
               Replication.no_stage_exists
               [ mkAssetKey ["aws"; "cloud-prod"; "workspace_staging_runs"] ])))
  = 4.
Proof.
  apply (proj1 (replication_statement_counts "bucket" "out" []
                  Replication.no_stage_exists
                  [ mkAssetKey ["aws"; "cloud-prod"; "workspace_staging_runs"] ]
                  ltac:(repeat split; intros; eexists; reflexivity)
                  ltac:(repeat constructor; discriminate))).
Defined.



(** X27.  The key of a stage spec and the key of an external-table spec
    depend on the last segment of the upstream key alone: two upstream keys
    get the same spec key exactly when they end in the same segment. *)
Theorem replication_keys_collide (k1 k2 : AssetKey) :
  (forall s1 s2,
     Replication.stage_spec k1 = Some s1 ->
     Replication.stage_spec k2 = Some s2 ->
     (Replication.spec_key s1 = Replication.spec_key s2 <->
      Os.path_last (path k1) = Os.path_last (path k2))) /\
  (forall s1 s2,
     Replication.external_table_spec k1 = Some s1 ->
     Replication.external_table_spec k2 = Some s2 ->
     (Replication.spec_key s1 = Replication.spec_key s2 <->
      Os.path_last (path k1) = Os.path_last (path k2))).
Proof.
  unfold Replication.stage_spec, Replication.external_table_spec.
  destruct (Os.path_last (path k1)) as [a|], (Os.path_last (path k2)) as [b|];
    split; intros s1 s2 H1 H2; try discriminate;
    injection H1 as <-; injection H2 as <-; cbn [Replication.spec_key];
    (split; intros H; [|now injection H as ->]); f_equal.
  - now injection H.
  - injection H as H. now apply OsFacts.append_cancel_r in H.
Qed.

Lemma replication_keys_collide_witness :
  Replication.spec_key
    (Replication.mkSpec
       (mkAssetKey ["aws"; "cloud-prod"; "workspace_staging_runs"])
       [mkAssetKey ["a"; "runs"]] Replication.daily
       Replication.global_freshness_policy)
  = Replication.spec_key
      (Replication.mkSpec
         (mkAssetKey ["aws"; "cloud-prod"; "workspace_staging_runs"])
         [mkAssetKey ["b"; "runs"]] Replication.daily
         Replication.global_freshness_policy).
Proof.
  apply (proj1 (replication_keys_collide (mkAssetKey ["a"; "runs"])
                  (mkAssetKey ["b"; "runs"])) _ _ eq_refl eq_refl).
  reflexivity.
Defined.

(** ** The Hightouch component *)

(** X28.  Once the sync has returned, [_assets] raises exactly when the run
    details hold a [failedRows] entry without a [get] method (neither a
    dict nor another mapping), and what it raises is [AttributeError];
    otherwise its metadata gives under [failed_rows] the [addedCount] of
    that entry, or [None] when the entry or the count is missing, and under
    [query_size] and [completion_ratio] the fields of the run details, or
    [None]. *)
Theorem hightouch_failed_rows (env : Os.Env) (sync_id_env_var : string)
  (sync_and_poll : string -> result Hightouch.HightouchOutput)
  (out : Hightouch.HightouchOutput) :
  sync_and_poll (Os.getenv env sync_id_env_var "") = Ok out ->
  (forall e,
     Hightouch._assets env sync_id_env_var sync_and_poll = Raise e <->
     e = AttributeError /\
     exists v,
       dict_get (Hightouch.sync_run_details out) "failedRows" = Some v /\
       has_get v = false) /\
  (forall metadata,
     Hightouch._assets env sync_id_env_var sync_and_poll = Ok metadata ->
     dict_get metadata "failed_rows"
     = Some match dict_get (Hightouch.sync_run_details out) "failedRows" with
            | Some (VDict items) | Some (VMapping _ items) =>
                dict_get_default items "addedCount" VNone
            | _ => VNone
            end /\
     dict_get metadata "query_size"
     = Some (dict_get_default (Hightouch.sync_run_details out) "querySize"
               VNone) /\
     dict_get metadata "completion_ratio"
     = Some (dict_get_default (Hightouch.sync_run_details out)
               "completionRatio" VNone)).
Proof.
  intros Hs. unfold Hightouch._assets. rewrite Hs. cbn [bind].
  unfold dict_get_default at 1 4.
  destruct (dict_get (Hightouch.sync_run_details out) "failedRows")
    as [v|] eqn:E.
  - destruct v; cbn [get_method bind];
      (split;
       [ intros e; split;
         [ intros H;
           first [ discriminate
                 | injection H as <-; split; [reflexivity|];
                   eexists; split; reflexivity ]
         | intros (-> & v & Hv & Hg); injection Hv as <-;
           first [discriminate | reflexivity] ]
       | intros metadata H;
         first [ discriminate
               | injection H as <-; repeat split; reflexivity ] ]).
  - cbn [get_method bind]. split.
    + intros e. split; [discriminate|].
      intros (_ & v & Hv & _). discriminate.
    + intros metadata [= <-]. repeat split; reflexivity.
Qed.

Lemma hightouch_failed_rows_witness :
  Hightouch._assets [("SYNC", "42")] "SYNC"
    (fun _ => Ok (Hightouch.mkHightouchOutput []
                    [(VStr "failedRows", VNone)] []))
  = Raise AttributeError.
Proof.
  apply (proj1 (hightouch_failed_rows [("SYNC", "42")] "SYNC"
                  (fun _ => Ok (Hightouch.mkHightouchOutput []
                                  [(VStr "failedRows", VNone)] []))
                  (Hightouch.mkHightouchOutput []
                     [(VStr "failedRows", VNone)] [])
                  eq_refl) AttributeError).
  split; [reflexivity|]. exists VNone. now split.
Defined.
